(** * github-release-packager: the default plugin's version normalisation

    A shallow embedding of [lib/grp-plugin-default.js] (the functions
    [GetSectionString], [ParseSection], [ParseVersion] and [getSemver] of the
    exported [github] object), of the JavaScript built-ins those functions
    call, and of [valid] from the [semver] package the file requires. *)

From Stdlib Require Import String Ascii.
From Stdlib Require Import ZArith NArith Bool List Lia.
From Stdlib Require DecimalN DecimalFacts HexadecimalN.
Import ListNotations.

Local Open Scope N_scope.

(** ** JavaScript values and built-ins *)

Module JS.

(** A JavaScript string is a sequence of UTF-16 code units.  Every built-in
    used by the plugin ([trim], [split], [replace] with a regular expression
    without the [u] flag, [parseInt]) works code unit by code unit. *)
#[warnings="-notation-for-abbreviation"]
Notation codeunit := N (only parsing).
#[warnings="-notation-for-abbreviation"]
Notation jsstring := (list N) (only parsing).

(** String literals of the source: one code unit per character. *)
Definition str (s : string) : jsstring :=
  map N_of_ascii (list_ascii_of_string s).

Definition eqb (s t : jsstring) : bool :=
  if list_eq_dec N.eq_dec s t then true else false.

(** The values [typeof] tells apart.  Numbers are the integral ones; their
    decimal rendering below is the one JavaScript gives to integers of
    magnitude at most [2^53 - 1]. *)
Inductive jsval :=
| JSUndefined
| JSNull
| JSBoolean (b : bool)
| JSNumber (n : Z)
| JSString (s : jsstring).

Inductive jstype := TUndefined | TObject | TBoolean | TNumber | TString.

Definition typeof (v : jsval) : jstype :=
  match v with
  | JSUndefined => TUndefined
  | JSNull => TObject
  | JSBoolean _ => TBoolean
  | JSNumber _ => TNumber
  | JSString _ => TString
  end.

(** *** Decimal and hexadecimal digits *)

Definition isDigit (c : codeunit) : bool := (48 <=? c) && (c <=? 57).
Definition isLower (c : codeunit) : bool := (97 <=? c) && (c <=? 122).
Definition isUpper (c : codeunit) : bool := (65 <=? c) && (c <=? 90).
Definition isHexDigit (c : codeunit) : bool :=
  isDigit c || ((97 <=? c) && (c <=? 102)) || ((65 <=? c) && (c <=? 70)).

Fixpoint uint_of_digits (ds : jsstring) : Decimal.uint :=
  match ds with
  | [] => Decimal.Nil
  | c :: r =>
      let d := uint_of_digits r in
      match c with
      | 48 => Decimal.D0 d | 49 => Decimal.D1 d | 50 => Decimal.D2 d
      | 51 => Decimal.D3 d | 52 => Decimal.D4 d | 53 => Decimal.D5 d
      | 54 => Decimal.D6 d | 55 => Decimal.D7 d | 56 => Decimal.D8 d
      | _ => Decimal.D9 d
      end
  end.

Fixpoint digits_of_uint (d : Decimal.uint) : jsstring :=
  match d with
  | Decimal.Nil => []
  | Decimal.D0 d => 48 :: digits_of_uint d
  | Decimal.D1 d => 49 :: digits_of_uint d
  | Decimal.D2 d => 50 :: digits_of_uint d
  | Decimal.D3 d => 51 :: digits_of_uint d
  | Decimal.D4 d => 52 :: digits_of_uint d
  | Decimal.D5 d => 53 :: digits_of_uint d
  | Decimal.D6 d => 54 :: digits_of_uint d
  | Decimal.D7 d => 55 :: digits_of_uint d
  | Decimal.D8 d => 56 :: digits_of_uint d
  | Decimal.D9 d => 57 :: digits_of_uint d
  end.

Fixpoint hex_uint_of_digits (ds : jsstring) : Hexadecimal.uint :=
  match ds with
  | [] => Hexadecimal.Nil
  | c :: r =>
      let d := hex_uint_of_digits r in
      match c with
      | 48 => Hexadecimal.D0 d | 49 => Hexadecimal.D1 d
      | 50 => Hexadecimal.D2 d | 51 => Hexadecimal.D3 d
      | 52 => Hexadecimal.D4 d | 53 => Hexadecimal.D5 d
      | 54 => Hexadecimal.D6 d | 55 => Hexadecimal.D7 d
      | 56 => Hexadecimal.D8 d | 57 => Hexadecimal.D9 d
      | 97 | 65 => Hexadecimal.Da d | 98 | 66 => Hexadecimal.Db d
      | 99 | 67 => Hexadecimal.Dc d | 100 | 68 => Hexadecimal.Dd d
      | 101 | 69 => Hexadecimal.De d
      | _ => Hexadecimal.Df d
      end
  end.

(** The integer a run of decimal (resp. hexadecimal) digits denotes. *)
Definition decimal_value (ds : jsstring) : Z :=
  Z.of_N (N.of_uint (uint_of_digits ds)).
Definition hex_value (ds : jsstring) : Z :=
  Z.of_N (N.of_hex_uint (hex_uint_of_digits ds)).

(** [Number::toString] on an integer: decimal digits, no leading zero, a
    minus sign for negative values.  This is what JavaScript prints for an
    integer up to [2^53 - 1] in absolute value; above that a Number is a
    rounded value, printed in exponent form from [10^21] on, and the
    statements that print a number keep below that bound. *)
Definition Number_toString (n : Z) : jsstring :=
  let ds := digits_of_uint (N.to_uint (Z.abs_N n)) in
  if (n <? 0)%Z then 45 :: ds else ds.

(** [ToString], as a template literal applies it. *)
Definition ToString (v : jsval) : jsstring :=
  match v with
  | JSUndefined => str "undefined"
  | JSNull => str "null"
  | JSBoolean true => str "true"
  | JSBoolean false => str "false"
  | JSNumber n => Number_toString n
  | JSString s => s
  end.

(** *** Strings *)

(** ECMAScript [WhiteSpace] and [LineTerminator] code units. *)
Definition isWhiteSpace (c : codeunit) : bool :=
  ((9 <=? c) && (c <=? 13)) || (c =? 32) || (c =? 160) || (c =? 5760)
  || ((8192 <=? c) && (c <=? 8202)) || (c =? 8232) || (c =? 8233)
  || (c =? 8239) || (c =? 8287) || (c =? 12288) || (c =? 65279).

Fixpoint trimStart (s : jsstring) : jsstring :=
  match s with
  | [] => []
  | c :: r => if isWhiteSpace c then trimStart r else s
  end.

Definition trimEnd (s : jsstring) : jsstring := rev (trimStart (rev s)).

(** [String.prototype.trim] *)
Definition trim (s : jsstring) : jsstring := trimEnd (trimStart s).

(** [String.prototype.split] with a one-code-unit separator: the string is
    cut at every occurrence of the separator ... *)
Fixpoint split_all (sep : codeunit) (s : jsstring) : list jsstring :=
  match s with
  | [] => [[]]
  | c :: r =>
      if c =? sep then [] :: split_all sep r
      else match split_all sep r with
           | t :: ts => (c :: t) :: ts
           | [] => [[c]]
           end
  end.

(** ... and, when a limit is given, the array is cut after that many
    entries; the text behind them is not part of the result. *)
Definition split (sep : codeunit) (limit : option nat) (s : jsstring)
  : list jsstring :=
  match limit with
  | None => split_all sep s
  | Some lim => firstn lim (split_all sep s)
  end.

(** [Array.prototype.join] on an array of strings. *)
Fixpoint join (sep : jsstring) (xs : list jsstring) : jsstring :=
  match xs with
  | [] => []
  | [x] => x
  | x :: r => x ++ sep ++ join sep r
  end.

(** [Array.prototype.forEach]: the callback gets the element, its index and
    the array; the state it mutates is threaded through. *)
Definition forEach {A S : Type} (f : A -> nat -> list A -> S -> S)
  (arr : list A) (init : S) : S :=
  fold_left (fun st ix => f (snd ix) (fst ix) arr st)
            (combine (seq 0 (length arr)) arr) init.

(** [String.prototype.replace] with a global one-character class: every
    code unit the class matches is replaced. *)
Definition replace_class (matches : codeunit -> bool) (by_ : codeunit)
  (s : jsstring) : jsstring :=
  map (fun c => if matches c then by_ else c) s.

Fixpoint takeWhile (p : codeunit -> bool) (s : jsstring) : jsstring :=
  match s with
  | [] => []
  | c :: r => if p c then c :: takeWhile p r else []
  end.

Fixpoint dropWhile (p : codeunit -> bool) (s : jsstring) : jsstring :=
  match s with
  | [] => []
  | c :: r => if p c then dropWhile p r else s
  end.

(** The text before the first occurrence of a code unit, and the text behind
    it when there is one. *)
Fixpoint cut (sep : codeunit) (s : jsstring) : jsstring * option jsstring :=
  match s with
  | [] => ([], None)
  | c :: r =>
      if c =? sep then ([], Some r)
      else let (a, b) := cut sep r in (c :: a, b)
  end.

(** An array element of type [string|number]. *)
Inductive strnum :=
| Num (n : Z)
| Str (s : jsstring).

Definition strnum_toString (x : strnum) : jsstring :=
  match x with
  | Num n => Number_toString n
  | Str s => s
  end.

(** [Array.prototype.join] on an array of strings and numbers. *)
Definition join_array (sep : jsstring) (xs : list strnum) : jsstring :=
  join sep (map strnum_toString xs).

(** [parseInt(string)] without a radix.  [None] is [NaN].  Leading white
    space is skipped, a sign is read, a [0x]/[0X] prefix selects radix 16,
    and the longest prefix of digits of the radix is the value; what follows
    that prefix is ignored.  The result is the mathematical integer, which is
    the Number JavaScript returns as long as it is below [2^53]; [-0] is
    rendered as [0], from which no operation used here tells it apart. *)
Definition parseInt (input : jsstring) : option Z :=
  let s := trimStart input in
  let (sign, s) :=
    match s with
    | c :: r =>
        if c =? 45 then ((-1)%Z, r)
        else if c =? 43 then (1%Z, r)
        else (1%Z, s)
    | [] => (1%Z, s)
    end in
  let (radix16, s) :=
    match s with
    | c :: x :: r =>
        if (c =? 48) && ((x =? 120) || (x =? 88)) then (true, r)
        else (false, s)
    | _ => (false, s)
    end in
  if radix16 then
    match takeWhile isHexDigit s with
    | [] => None
    | ds => Some (sign * hex_value ds)%Z
    end
  else
    match takeWhile isDigit s with
    | [] => None
    | ds => Some (sign * decimal_value ds)%Z
    end.

(** [Array.prototype.slice(begin, end)] and [slice(begin)] for indices
    within [0 .. length]. *)
Definition slice {A : Type} (arr : list A) (b e : nat) : list A :=
  firstn (e - b) (skipn b arr).
Definition slice_from {A : Type} (arr : list A) (b : nat) : list A :=
  skipn b arr.

(** [arr[i]] on an array of strings: [undefined] outside the array. *)
Definition index (arr : list jsstring) (i : nat) : jsval :=
  match nth_error arr i with
  | Some s => JSString s
  | None => JSUndefined
  end.

(** *** Promises of async functions: resolved with a value, or rejected *)

Inductive exn :=
| Error (message : jsstring)
| TypeError.

Inductive result (A : Type) :=
| Return (a : A)
| Throw (e : exn).
Arguments Return {A} a.
Arguments Throw {A} e.

Definition await {A B : Type} (r : result A) (k : A -> result B) : result B :=
  match r with
  | Return a => k a
  | Throw e => Throw e
  end.

End JS.

Import JS.

Notation "x <- 'await' c ;; k" := (await c (fun x => k))
  (at level 61, c at next level, right associativity).

(** ** The [semver] package: [valid]

    [package.json] depends on [semver ^7.1.3]; the plugin calls
    [semver.valid(version, { includePrerelease: true })].  The options object
    has no [loose] property, so the strict expression [FULL] of
    [internal/re.js] is the one used.  This module follows
    [functions/valid.js], [functions/parse.js], [classes/semver.js] and
    [internal/re.js] of that release. *)

Module Semver.

Definition MAX_LENGTH : nat := 256.
Definition MAX_SAFE_INTEGER : Z := 9007199254740991.

(** [[a-zA-Z-]] and [[a-zA-Z0-9-]] *)
Definition isLetterOrHyphen (c : codeunit) : bool :=
  isLower c || isUpper c || (c =? 45).
Definition isIdentChar (c : codeunit) : bool :=
  isDigit c || isLetterOrHyphen c.

(** [NUMERICIDENTIFIER]: a single [0], or a digit other than [0] and any
    number of digits. *)
Definition NUMERICIDENTIFIER (s : jsstring) : bool :=
  match s with
  | [] => false
  | c :: r =>
      if c =? 48 then match r with [] => true | _ => false end
      else isDigit c && forallb isDigit r
  end.

(** [NONNUMERICIDENTIFIER]: any number of digits, one of [[a-zA-Z-]], any
    number of [[a-zA-Z0-9-]]. *)
Definition NONNUMERICIDENTIFIER (s : jsstring) : bool :=
  match dropWhile isDigit s with
  | [] => false
  | c :: r => isLetterOrHyphen c && forallb isIdentChar r
  end.

(** [PRERELEASEIDENTIFIER = (?:NUMERICIDENTIFIER|NONNUMERICIDENTIFIER)] *)
Definition PRERELEASEIDENTIFIER (s : jsstring) : bool :=
  NUMERICIDENTIFIER s || NONNUMERICIDENTIFIER s.

(** [BUILDIDENTIFIER = [0-9A-Za-z-]+] *)
Definition BUILDIDENTIFIER (s : jsstring) : bool :=
  match s with
  | [] => false
  | _ => forallb isIdentChar s
  end.

(** [PRERELEASE]: a [-], then one or more [PRERELEASEIDENTIFIER]s with a
    dot between them.  This is the test of the text behind the [-]. *)
Definition PRERELEASE (s : jsstring) : bool :=
  forallb PRERELEASEIDENTIFIER (split_all 46 s).

(** [BUILD]: a [+], then one or more [BUILDIDENTIFIER]s with a dot
    between them.  This is the test of the text behind the [+]. *)
Definition BUILD (s : jsstring) : bool :=
  forallb BUILDIDENTIFIER (split_all 46 s).

(** The five capture groups of [FULL]. *)
Record groups := {
  m1 : jsstring;
  m2 : jsstring;
  m3 : jsstring;
  m4 : option jsstring;
  m5 : option jsstring
}.

Definition optb (p : jsstring -> bool) (o : option jsstring) : bool :=
  match o with
  | None => true
  | Some s => p s
  end.

(** [MAINVERSION PRERELEASE? BUILD?], anchored at both ends.  No [+] can
    occur before the build metadata and no [-] before the prerelease, so the
    first [+] and, before it, the first [-] are the two delimiters. *)
Definition FULLPLAIN_tail (s : jsstring) : option groups :=
  let (front, build) := cut 43 s in
  let (main, prerelease) := cut 45 front in
  match split_all 46 main with
  | [a; b; c] =>
      if NUMERICIDENTIFIER a && NUMERICIDENTIFIER b && NUMERICIDENTIFIER c
         && optb PRERELEASE prerelease && optb BUILD build
      then Some {| m1 := a; m2 := b; m3 := c; m4 := prerelease; m5 := build |}
      else None
  | _ => None
  end.

(** [FULL = ^v?MAINVERSION PRERELEASE? BUILD?$] *)
Definition FULL (version : jsstring) : option groups :=
  match version with
  | c :: r => if c =? 118 then FULLPLAIN_tail r else FULLPLAIN_tail version
  | [] => FULLPLAIN_tail version
  end.

Record SemVer := {
  raw : jsstring;
  major : Z;
  minor : Z;
  patch : Z;
  prerelease : list strnum;
  build : list jsstring;
  version : jsstring
}.

(** [format()]: the build metadata is not part of [version]. *)
Definition format (major minor patch : Z) (prerelease : list strnum)
  : jsstring :=
  let v := Number_toString major ++ str "." ++ Number_toString minor
           ++ str "." ++ Number_toString patch in
  match prerelease with
  | [] => v
  | _ => v ++ str "-" ++ join_array (str ".") prerelease
  end.

(** The test [/^[0-9]+$/] *)
Definition all_digits (id : jsstring) : bool :=
  match id with
  | [] => false
  | _ => forallb isDigit id
  end.

(** The constructor keeps a prerelease identifier that consists of digits
    as a number when its value is below [MAX_SAFE_INTEGER], and as the
    string otherwise. *)
Definition prerelease_id (id : jsstring) : strnum :=
  if all_digits id then
    let num := decimal_value id in
    if ((num >=? 0) && (num <? MAX_SAFE_INTEGER))%Z then Num num else Str id
  else Str id.

(** The constructor; [None] stands for the [TypeError] it throws. *)
Definition new_SemVer (v : jsstring) : option SemVer :=
  if (MAX_LENGTH <? length v)%nat then None
  else
    match FULL (trim v) with
    | None => None
    | Some m =>
        let major := decimal_value (m1 m) in
        let minor := decimal_value (m2 m) in
        let patch := decimal_value (m3 m) in
        if ((major >? MAX_SAFE_INTEGER) || (major <? 0))%Z then None
        else if ((minor >? MAX_SAFE_INTEGER) || (minor <? 0))%Z then None
        else if ((patch >? MAX_SAFE_INTEGER) || (patch <? 0))%Z then None
        else
          let prerelease :=
            match m4 m with
            | None => []
            | Some p =>
                map prerelease_id (split_all 46 p)
            end in
          let build :=
            match m5 m with
            | None => []
            | Some b => split_all 46 b
            end in
          Some {| raw := v; major := major; minor := minor; patch := patch;
                  prerelease := prerelease; build := build;
                  version := format major minor patch prerelease |}
    end.

(** [parse(version, options)] on a string: the untrimmed string is tested
    against [FULL] before the constructor is called. *)
Definition parse (v : jsstring) : option SemVer :=
  if (MAX_LENGTH <? length v)%nat then None
  else
    match FULL v with
    | None => None
    | Some _ => new_SemVer v
    end.

(** [valid(version, options)]: the [version] of the parsed object, or
    [null]. *)
Definition valid (v : jsstring) : option jsstring :=
  match parse v with
  | Some sv => Some (version sv)
  | None => None
  end.

End Semver.

(** ** The default plugin, [lib/grp-plugin-default.js] *)

Module Plugin.

(** [@typedef {string|number} SectionPart], [@typedef {SectionPart[]}
    VersionSection] and [@typedef {object} Version] of [index.js]. *)
Definition SectionPart := strnum.
Definition VersionSection := list SectionPart.

Record Version := {
  Release : VersionSection;
  Prerelease : VersionSection;
  BuildMetadata : VersionSection
}.

(** The callbacks of [GitHubReleasePackagerExtendedPlugin] that [getSemver]
    reaches through its [defaultPlugin] argument. *)
Record ExtendedPlugin := {
  plugin_ParseVersion : jsval -> result Version;
  plugin_ParseSection : jsval -> result VersionSection;
  plugin_GetSectionString : jsval -> result jsstring
}.

Definition section_type_error (section : jsval) : exn :=
  Error (str "Type of parameter 'section' (" ++ ToString section
         ++ str ") must be 'string'.").

Definition version_type_error (version : jsval) : exn :=
  Error (str "Type of parameter 'version' (" ++ ToString version
         ++ str ") must be 'string'.").

Definition version_blank_error (version : jsval) : exn :=
  Error (str "Parameter 'version' (" ++ ToString version
         ++ str ") is not a string, or empty, or consists only of whitespace characters.").

(** The class [[^0-9a-zA-Z-\.]] of the sanitizing expression: everything but
    digits, letters, the hyphen and the dot. *)
Definition invalid_char (c : codeunit) : bool :=
  negb (isDigit c || isLower c || isUpper c || (c =? 45) || (c =? 46)).

(** [GetSectionString: async function (section)] *)
Definition GetSectionString (section : jsval) : result jsstring :=
  match section with
  | JSString s => Return (replace_class invalid_char 46 s)
  | _ => Throw (section_type_error section)
  end.

(** The callback [ParseSection] hands to [forEach]; [result] is the array
    it pushes to. *)
Definition ParseSection_step (part : jsstring) (pIdx : nat)
  (pArr : list jsstring) (result : VersionSection) : VersionSection :=
  if JS.eqb (trim part) [] then
    if (Z.of_nat pIdx <? Z.of_nat (length pArr) - 1)%Z
    then result ++ [Num 0]
    else result
  else
    match parseInt part with
    | Some num =>
        if (num >=? 0)%Z then result ++ [Num num] else result ++ [Str part]
    | None => result ++ [Str part]
    end.

(** [ParseSection: async function (section)].  [this] is the exported
    object in every call the package makes, so [this.GetSectionString] is the
    function above. *)
Definition ParseSection (section : jsval) : result VersionSection :=
  match section with
  | JSString _ =>
      s <- await GetSectionString section ;;
      Return (forEach ParseSection_step (split 46 None s) [])
  | _ => Throw (section_type_error section)
  end.

(** [ParseVersion: async function (version)].  The variable [sections] is
    assigned a second time inside the first conditional; the second
    conditional reads whichever array it then holds. *)
Definition ParseVersion (version : jsval) : result Version :=
  match version with
  | JSString v =>
      let sections := split 45 (Some 2%nat) v in
      release <- await ParseSection (index sections 0) ;;
      sp <- await
        (if (1 <? length sections)%nat then
           let sections := split 43 (Some 2%nat) (nth 1 sections []) in
           prerelease <- await ParseSection (index sections 0) ;;
           Return (sections, prerelease)
         else Return (sections, [])) ;;
      let sections := fst sp in
      build <- await
        (if (1 <? length sections)%nat then ParseSection (index sections 1)
         else Return []) ;;
      Return {| Release := release; Prerelease := snd sp;
                BuildMetadata := build |}
  | _ => Throw (version_type_error version)
  end.

(** The exported object, as far as version handling goes. *)
Definition github : ExtendedPlugin := {|
  plugin_ParseVersion := ParseVersion;
  plugin_ParseSection := ParseSection;
  plugin_GetSectionString := GetSectionString
|}.

Definition is_number (x : option SectionPart) : bool :=
  match x with
  | Some (Num _) => true
  | _ => false
  end.

(** The [for] loop of [getSemver] with its [break]: once the flag is
    cleared the remaining indices are not looked at. *)
Definition firstThreeVersionPartsAreDigits (release : VersionSection)
  : bool :=
  fold_left
    (fun (flag : bool) (vIdx : nat) =>
       if flag then is_number (nth_error release vIdx) else false)
    (seq 0 (Nat.min (length release) 3)) true.

(** The statements of [getSemver] behind the call of [ParseVersion]. *)
Definition assemble (sections : Version) : jsstring :=
  let release := Release sections in
  let result :=
    if firstThreeVersionPartsAreDigits release then
      let result :=
        join_array (str ".")
          (slice release 0 (Nat.min (length release) 3)) in
      let result :=
        if (length release <? 3)%nat then result ++ str ".0" else result in
      let result :=
        if (length release <? 2)%nat then result ++ str ".0" else result in
      if (3 <? length release)%nat
      then result ++ str "-" ++ join_array (str ".") (slice_from release 3)
      else result
    else
      let result := str "0.0.0" in
      if (0 <? length release)%nat
      then result ++ str "-" ++ join_array (str ".") release
      else result in
  let result :=
    if (0 <? length (Prerelease sections))%nat
    then result ++ str "-" ++ join_array (str ".") (Prerelease sections)
    else result in
  if (0 <? length (BuildMetadata sections))%nat
  then result ++ str "+" ++ join_array (str ".") (BuildMetadata sections)
  else result.

(** [getSemver: async function (version, defaultPlugin)].  A call that
    leaves [defaultPlugin] out passes [undefined], here [None]; reading
    [ParseVersion] from it is a [TypeError]. *)
Definition getSemver (version : jsval) (defaultPlugin : option ExtendedPlugin)
  : result jsstring :=
  match version with
  | JSString v =>
      if JS.eqb (trim v) [] then Throw (version_blank_error version)
      else
        match Semver.valid v with
        | Some result => Return result
        | None =>
            match defaultPlugin with
            | None => Throw TypeError
            | Some plugin =>
                sections <- await plugin_ParseVersion plugin version ;;
                Return (assemble sections)
            end
        end
  | _ => Throw (version_blank_error version)
  end.

End Plugin.

Import Plugin.

(** ** More built-ins, for the code around the version functions *)

Module JS2.

(** [Array.prototype.pop] on an array of strings, as far as its value goes:
    the last element, [undefined] for the empty array. *)
Definition pop (arr : list jsstring) : jsval :=
  match arr with
  | [] => JSUndefined
  | _ => JSString (last arr [])
  end.

(** [String.prototype.toLowerCase] on Basic Latin.  Code units above 127 are
    kept as they are, which is not what JavaScript does for a letter with a
    lower-case form of its own; no such letter has one of [g], [i], [t],
    [h], [u], [b] as its lower-case form, so the comparison with ['github']
    that [getRepository] makes comes out as in JavaScript. *)
Definition toLowerCase (s : jsstring) : jsstring :=
  map (fun c => if isUpper c then c + 32 else c) s.

(** The calls of [console] a function makes, in order. *)
Inductive console_call :=
| console_info (message : jsstring)
| console_warn (message : jsstring)
| console_debug (message : jsstring).

(** A value read from a JSON file.  Numbers are the integral ones. *)
#[warnings="-register-all"]
Inductive json :=
| JNull
| JBool (b : bool)
| JNum (n : Z)
| JStr (s : jsstring)
| JArr (items : list json)
| JObj (fields : list (jsstring * json)).

(** The own property of the given name. *)
Fixpoint assoc (key : jsstring) (fields : list (jsstring * json))
  : option json :=
  match fields with
  | [] => None
  | (k, v) :: rest => if JS.eqb k key then Some v else assoc key rest
  end.

(** [v[key]] and [v.key] for a property name that no prototype defines
    ([grp], [repository], [default], the values of [process.platform] and
    [process.arch]): the own property of an object, [undefined] ([None]) on
    an array, a string, a number or a boolean, and a [TypeError] on
    [null]. *)
Definition get (v : json) (key : jsstring) : result (option json) :=
  match v with
  | JNull => Throw TypeError
  | JObj fields => Return (assoc key fields)
  | _ => Return None
  end.

(** [typeof] of a value that may be [undefined]. *)
Definition typeof_json (v : option json) : jstype :=
  match v with
  | None => TUndefined
  | Some JNull | Some (JArr _) | Some (JObj _) => TObject
  | Some (JBool _) => TBoolean
  | Some (JNum _) => TNumber
  | Some (JStr _) => TString
  end.

(** [ToBoolean]: what [!v], [if (v)] and [v || w] test. *)
Definition truthy (v : option json) : bool :=
  match v with
  | None | Some JNull | Some (JBool false) | Some (JStr []) => false
  | Some (JNum n) => negb (n =? 0)%Z
  | _ => true
  end.

(** [a || b] *)
Definition or_else (a b : option json) : option json :=
  if truthy a then a else b.

End JS2.

Import JS2.

(** ** The other callbacks of the default plugin *)

Module Callbacks.

(** [@typedef {object} GitHubRepository] *)
Record GitHubRepository := {
  owner : jsstring;
  name : jsstring
}.

(** [getDownloadURL: async (repository, version)] *)
Definition getDownloadURL (repository : GitHubRepository) (version : jsval)
  : result jsstring :=
  Return (str "https://github.com/" ++ owner repository ++ str "/"
          ++ name repository ++ str "/archive/v" ++ ToString version
          ++ str ".zip").

(** The values Node.js documents for [process.platform] and
    [process.arch]. *)
Inductive Platform :=
| aix | android | darwin | freebsd | linux | openbsd | sunos | win32.

Inductive Arch :=
| arm | arm64 | ia32 | mips | mipsel | ppc | ppc64 | s390 | s390x | x32 | x64.

Definition platform_name (p : Platform) : jsstring :=
  match p with
  | aix => str "aix" | android => str "android" | darwin => str "darwin"
  | freebsd => str "freebsd" | linux => str "linux"
  | openbsd => str "openbsd" | sunos => str "sunos" | win32 => str "win32"
  end.

Definition arch_name (a : Arch) : jsstring :=
  match a with
  | arm => str "arm" | arm64 => str "arm64" | ia32 => str "ia32"
  | mips => str "mips" | mipsel => str "mipsel" | ppc => str "ppc"
  | ppc64 => str "ppc64" | s390 => str "s390" | s390x => str "s390x"
  | x32 => str "x32" | x64 => str "x64"
  end.

(** A property of a value that [!v] has found truthy, so not of [null]. *)
Definition prop (v : option json) (key : jsstring) : option json :=
  match v with
  | Some (JObj fields) => assoc key fields
  | _ => None
  end.

(** [GetExecutable: async function (executableName, executables,
    defaultPlugin)] of the later revision of the plugin, with
    [process.platform] and [process.arch] as arguments.  [executables] is an
    object whose prototype, like that of the objects inside it, is
    [Object.prototype]; a name it inherits from there has no property of the
    name of a platform or [default], so it ends in [''] like a name that is
    missing. *)
Definition GetExecutable (platform : Platform) (arch : Arch)
  (executableName : jsstring) (executables : list (jsstring * json))
  : result json :=
  let executablePath := assoc executableName executables in
  if negb (truthy executablePath) then Return (JStr [])
  else
    let executablePath :=
      or_else (prop executablePath (platform_name platform))
              (prop executablePath (str "default")) in
    if negb (truthy executablePath) then Return (JStr [])
    else
      let executablePath :=
        or_else (prop executablePath (arch_name arch))
                (prop executablePath (str "default")) in
      if negb (truthy executablePath) then Return (JStr [])
      else
        Return (match or_else executablePath (Some (JStr [])) with
                | Some v => v
                | None => JStr []
                end).

End Callbacks.

Import Callbacks.

(** ** The packager, [index.js] *)

Module Packager.

(** [exports.UpdateOperation] *)
Definition UpdateOperation_default : jsval := JSNumber 0.
Definition UpdateOperation_checkonly : jsval := JSNumber 1.
Definition UpdateOperation_force : jsval := JSNumber 2.

(** [===] on the values of [jsval]. *)
Definition strict_equal (a b : jsval) : bool :=
  match a, b with
  | JSUndefined, JSUndefined | JSNull, JSNull => true
  | JSBoolean x, JSBoolean y => Bool.eqb x y
  | JSNumber x, JSNumber y => (x =? y)%Z
  | JSString x, JSString y => JS.eqb x y
  | _, _ => false
  end.

(** [function getRepository (packageObject)], on the [packageJson] of the
    package object. *)
Definition getRepository (packageJson : json) : result GitHubRepository :=
  grp <- await get packageJson (str "grp") ;;
  match typeof_json grp with
  | TObject =>
      repository <- await
        match grp with
        | Some g => get g (str "repository")
        | None => Throw TypeError
        end ;;
      match repository with
      | Some (JStr repository) =>
          let repositoryParts := split 58 (Some 2%nat) repository in
          if (length repositoryParts <? 2)%nat
             || negb (JS.eqb (toLowerCase (nth 0 repositoryParts []))
                             (str "github"))
          then Throw (Error (str "repository '" ++ repository
                 ++ str "' is expected to be is short notation and to start with 'github'."))
          else
            let repositoryParts :=
              split 47 (Some 2%nat) (nth 1 repositoryParts []) in
            if (length repositoryParts <? 2)%nat
            then Throw (Error (str "Invalid repository specification '"
                               ++ repository ++ str "'."))
            else Return {| owner := nth 0 repositoryParts [];
                           name := nth 1 repositoryParts [] |}
      | _ =>
          Throw (Error
            (str "There is no 'repository' specified in the package file."))
      end
  | _ =>
      Throw (Error
        (str "There is no 'grp' object specified in the package file."))
  end.

(** [function shouldAbort (condition, operation, trueText, falseText,
    detailText)]: the value returned and the lines written to the
    console. *)
Definition shouldAbort (condition : bool) (operation : jsval)
  (trueText falseText : jsstring) (detailText : jsval)
  : bool * list console_call :=
  let detailText :=
    match detailText with
    | JSString d =>
        if JS.eqb (trim d) [] then
          str "'condition evaluates to [" ++ ToString (JSBoolean condition)
          ++ str "]"
        else d
    | _ =>
        str "'condition evaluates to [" ++ ToString (JSBoolean condition)
        ++ str "]"
    end in
  if condition then
    let msg := trueText ++ str " (" ++ detailText ++ str ")" in
    if strict_equal operation UpdateOperation_force
    then (false, [console_info (msg ++ str ", forcing update anyway.")])
    else (true, [console_info (msg ++ str ".")])
  else
    let msg := falseText ++ str " (" ++ detailText ++ str ")" in
    if negb (strict_equal operation UpdateOperation_checkonly)
    then (false, [console_info msg])
    else (true, [console_warn msg]).

(** The two statements of [UpdatePackage] that turn the name of the latest
    release into the version of the package: the plugin's [getSemver], here
    the default one, and the test of its result. *)
Definition latestNPM (pluginName : jsstring) (latest : jsval)
  : result jsstring :=
  latestNPM <- await getSemver latest (Some github) ;;
  match Semver.valid latestNPM with
  | None =>
      Throw (Error (str "The plugin '" ++ pluginName
                    ++ str "' returned an invalid version expression '"
                    ++ latestNPM ++ str "'."))
  | Some _ => Return latestNPM
  end.

(** The callback [GetNPMVersion] hands to [forEach]. *)
Definition GetNPMVersion_step (digit : jsstring) (_ : nat)
  (_ : list jsstring) (versionParts : list strnum) : list strnum :=
  match parseInt digit with
  | None => versionParts ++ [Str digit]
  | Some versionPart => versionParts ++ [Num versionPart]
  end.

(** The [for] loop of [GetNPMVersion], from [index] on. *)
Definition GetNPMVersion_loop (overlapFactor : Z) (versionParts : list strnum)
  (index : nat) (version : jsstring) : jsstring :=
  fold_left
    (fun version part =>
       match part with
       | Num n => version ++ Number_toString (n * overlapFactor)
       | Str s => version ++ s
       end)
    (skipn index versionParts) version.

(** [exports.GetNPMVersion = (version, overlapFactor)] of the earlier
    revision of [index.js]. *)
Definition GetNPMVersion (version overlapFactor : jsval) : result jsstring :=
  let overlapFactor :=
    match overlapFactor with
    | JSNumber n => if (n =? 0)%Z then 1000%Z else n
    | _ => 1000%Z
    end in
  match version with
  | JSString v =>
      let versionParts := forEach GetNPMVersion_step (split 46 None v) [] in
      if (3 <? length versionParts)%nat then
        let version :=
          strnum_toString (nth 0 versionParts (Str []))
          ++ str "." ++ strnum_toString (nth 1 versionParts (Str []))
          ++ str "." in
        Return (GetNPMVersion_loop overlapFactor versionParts 2 version)
      else Return v
  | _ =>
      Throw (Error (str "Parameter 'version' (" ++ ToString version
                    ++ str ") is not a string."))
  end.

End Packager.

Import Packager.

(** ** Notions used to state the properties *)

(** The characters the sanitizer keeps: [[0-9 a-z A-Z - .]]. *)
Definition allowed_char (c : codeunit) : bool :=
  isDigit c || isLower c || isUpper c || (c =? 45) || (c =? 46).

(** What [ParseSection] pushes for a token that is not empty. *)
Definition part_of_token (t : jsstring) : SectionPart :=
  match parseInt t with
  | Some num => if (num >=? 0)%Z then Num num else Str t
  | None => Str t
  end.

(** What [ParseSection] pushes for a token before the last one, and for the
    last one. *)
Definition emit_inner (t : jsstring) : VersionSection :=
  match t with
  | [] => [Num 0]
  | _ => [part_of_token t]
  end.

Definition emit_last (t : jsstring) : VersionSection :=
  match t with
  | [] => []
  | _ => [part_of_token t]
  end.

(** The parts of a section string: the array [ParseSection] resolves to. *)
Definition tokenize (s : jsstring) : VersionSection :=
  forEach ParseSection_step (split_all 46 (replace_class invalid_char 46 s)) [].

(** The version [ParseVersion] resolves to on a string. *)
Definition parsed (v : jsstring) : Version :=
  {| Release := tokenize (hd [] (split_all 45 v));
     Prerelease :=
       match split_all 45 v with
       | _ :: p :: _ => tokenize (hd [] (split_all 43 p))
       | _ => []
       end;
     BuildMetadata :=
       match split_all 45 v with
       | _ :: p :: _ =>
           match split_all 43 p with
           | _ :: b :: _ => tokenize b
           | _ => []
           end
       | _ => []
       end |}.

(** [sep] followed by the joined parts, or nothing for an empty section. *)
Definition suffix (sep : jsstring) (parts : VersionSection) : jsstring :=
  match parts with
  | [] => []
  | _ => sep ++ join_array (str ".") parts
  end.

Definition is_Num (x : SectionPart) : bool :=
  match x with
  | Num _ => true
  | Str _ => false
  end.

(** The default plugin applied to a string, the plugin itself passed as
    [defaultPlugin], as [index.js] and the test suite call it. *)
Definition getSemver_default (v : jsstring) : result jsstring :=
  getSemver (JSString v) (Some github).

(** What holds of every part [ParseSection] pushes: a number is not
    negative; a string is a non-empty run of [[0-9a-zA-Z-]] that is not all
    digits. *)
Definition good_part (p : SectionPart) : Prop :=
  match p with
  | Num n => (0 <= n)%Z
  | Str s =>
      s <> [] /\ forallb Semver.isIdentChar s = true
      /\ forallb isDigit s = false
  end.

(** A part whose number, if it is one, JavaScript holds exactly and the
    library takes as a release number. *)
Definition safe_part (p : SectionPart) : Prop :=
  match p with
  | Num n => (n <= Semver.MAX_SAFE_INTEGER)%Z
  | Str _ => True
  end.

Definition safe_version (sections : Version) : Prop :=
  Forall safe_part
    (Release sections ++ Prerelease sections ++ BuildMetadata sections).

(** The text between the first hyphen and the plus sign of an assembled
    version: the release parts behind the release numbers and the
    prerelease parts, a hyphen between the two groups. *)
Definition merge_pre (overflow prerelease : VersionSection)
  : option jsstring :=
  match overflow, prerelease with
  | [], [] => None
  | _ :: _, [] => Some (join_array (str ".") overflow)
  | [], _ :: _ => Some (join_array (str ".") prerelease)
  | _ :: _, _ :: _ =>
      Some (join_array (str ".") overflow ++ str "-"
            ++ join_array (str ".") prerelease)
  end.

(** The text the capture groups one to four of [FULL] stand for. *)
Definition render_groups (g : Semver.groups) : jsstring :=
  Semver.m1 g ++ str "." ++ Semver.m2 g ++ str "." ++ Semver.m3 g
  ++ match Semver.m4 g with
     | Some p => str "-" ++ p
     | None => []
     end.

(** The limits of the library: at most [MAX_LENGTH] code units, and no
    release number above [MAX_SAFE_INTEGER]. *)
Definition within_limits (v : jsstring) (g : Semver.groups) : Prop :=
  (length v <= Semver.MAX_LENGTH)%nat
  /\ (decimal_value (Semver.m1 g) <= Semver.MAX_SAFE_INTEGER)%Z
  /\ (decimal_value (Semver.m2 g) <= Semver.MAX_SAFE_INTEGER)%Z
  /\ (decimal_value (Semver.m3 g) <= Semver.MAX_SAFE_INTEGER)%Z.

(** A code unit at which [ParseSection] ends a token: a dot, or what the
    sanitizer turns into one. *)
Definition separator_char (c : codeunit) : bool :=
  invalid_char c || (c =? 46).

(** Whether a section string ends in a token that is not empty. *)
Definition open_ended (s : jsstring) : bool :=
  match rev s with
  | [] => false
  | c :: _ => negb (separator_char c)
  end.

(** The numbers [GetNPMVersion] reads and their products with the factor
    are numbers JavaScript holds exactly. *)
Definition npm_safe (overlapFactor : Z) (v : jsstring) : Prop :=
  forall t n, In t (split_all 46 v) -> parseInt t = Some n ->
    (Z.abs n <= Semver.MAX_SAFE_INTEGER)%Z
    /\ (Z.abs (n * overlapFactor) <= Semver.MAX_SAFE_INTEGER)%Z.

(** The numbers that runs of digits denote, as parts of a section. *)
Definition run_numbers (runs : list jsstring) : VersionSection :=
  map (fun r => Num (decimal_value r)) runs.

(** What [GetNPMVersion] keeps of one token of the split. *)
Definition npm_part (digit : jsstring) : strnum :=
  match parseInt digit with
  | None => Str digit
  | Some versionPart => Num versionPart
  end.

(** What the loop of [GetNPMVersion] appends for one part. *)
Definition scaled (overlapFactor : Z) (part : strnum) : jsstring :=
  match part with
  | Num n => Number_toString (n * overlapFactor)
  | Str s => s
  end.

(** The factor [GetNPMVersion] works with. *)
Definition factor_of (overlapFactor : jsval) : Z :=
  match overlapFactor with
  | JSNumber n => if (n =? 0)%Z then 1000%Z else n
  | _ => 1000%Z
  end.

(** ** Tactics *)

(** Boolean tests on code units, turned into arithmetic. *)
Ltac bool_to_prop :=
  repeat first
    [ rewrite andb_true_iff in * | rewrite orb_true_iff in *
    | rewrite negb_true_iff in * | rewrite andb_false_iff in *
    | rewrite orb_false_iff in * | rewrite negb_false_iff in *
    | rewrite N.leb_le in * | rewrite N.leb_gt in *
    | rewrite N.eqb_eq in * | rewrite N.eqb_neq in * ].

Ltac char_lia :=
  unfold invalid_char, allowed_char, Semver.isIdentChar,
    Semver.isLetterOrHyphen, isWhiteSpace, isHexDigit, isDigit, isLower,
    isUpper in *;
  bool_to_prop; lia.

(** [safe_version] of a concrete version, by computing its parts. *)
Ltac safe_version_by_computation :=
  unfold safe_version;
  match goal with
  | |- Forall _ ?l =>
      let l' := eval vm_compute in l in change (Forall safe_part l')
  end;
  repeat constructor; vm_compute; discriminate.

(** ** Strings: white space, cutting and splitting *)

Section StringFacts.

Lemma trimStart_nil_iff (s : jsstring) :
  trimStart s = [] <-> forallb isWhiteSpace s = true.
Proof.
  induction s as [|c r IH]; simpl.
  - tauto.
  - destruct (isWhiteSpace c); simpl; [exact IH|].
    split; discriminate.
Qed.

Lemma trimStart_head (s : jsstring) (c : codeunit) (r : jsstring) :
  trimStart s = c :: r -> isWhiteSpace c = false.
Proof.
  induction s as [|d t IH]; simpl; [discriminate|].
  destruct (isWhiteSpace d) eqn:E; [exact IH|].
  intros H; injection H as -> _; exact E.
Qed.

Lemma trimStart_forallb (s : jsstring) :
  forallb isWhiteSpace (trimStart s) = forallb isWhiteSpace s.
Proof.
  induction s as [|c r IH]; simpl; [reflexivity|].
  destruct (isWhiteSpace c) eqn:E; simpl; [exact IH|].
  now rewrite E.
Qed.

Lemma forallb_rev {A : Type} (p : A -> bool) (l : list A) :
  forallb p (rev l) = forallb p l.
Proof.
  induction l as [|a l IH]; simpl; [reflexivity|].
  rewrite forallb_app, IH; simpl.
  rewrite andb_true_r; apply andb_comm.
Qed.

(** A string is blank for [trim] exactly when it consists of white space. *)
Lemma trim_nil_iff (s : jsstring) :
  trim s = [] <-> forallb isWhiteSpace s = true.
Proof.
  unfold trim, trimEnd.
  rewrite <- (trimStart_forallb s), <- (forallb_rev _ (trimStart s)).
  rewrite <- trimStart_nil_iff.
  split; intros H.
  - apply (f_equal (@rev _)) in H; rewrite rev_involutive in H; exact H.
  - now rewrite H.
Qed.

Lemma trim_not_nil (c : codeunit) (r : jsstring) :
  isWhiteSpace c = false -> trim (c :: r) <> [].
Proof.
  intros E H; apply trim_nil_iff in H; simpl in H.
  rewrite E in H; discriminate.
Qed.

Lemma eqb_nil_true (s : jsstring) : JS.eqb s [] = true <-> s = [].
Proof.
  unfold JS.eqb; destruct (list_eq_dec N.eq_dec s (@nil codeunit)) as [e|n]; split;
    intros H; [exact e | reflexivity | discriminate H | exfalso; exact (n H)].
Qed.

Lemma eqb_nil_false (s : jsstring) : JS.eqb s [] = false <-> s <> [].
Proof.
  unfold JS.eqb; destruct (list_eq_dec N.eq_dec s (@nil codeunit)) as [e|n]; split;
    intros H; [discriminate H | exfalso; exact (H e) | exact n | reflexivity].
Qed.

Lemma split_all_not_nil (sep : codeunit) (s : jsstring) :
  split_all sep s <> [].
Proof.
  induction s as [|c r IH]; simpl; [discriminate|].
  destruct (c =? sep); [discriminate|].
  destruct (split_all sep r); [contradiction|discriminate].
Qed.

End StringFacts.

(** ** Character classes *)

Lemma invalid_not_allowed (c : codeunit) :
  invalid_char c = negb (allowed_char c).
Proof. reflexivity. Qed.

Lemma allowed_not_white (c : codeunit) :
  allowed_char c = true -> isWhiteSpace c = false.
Proof. intros H; apply not_true_is_false; intros W; char_lia. Qed.

Lemma sanitized_allowed (s : jsstring) (c : codeunit) :
  In c (replace_class invalid_char 46 s) -> allowed_char c = true.
Proof.
  unfold replace_class; rewrite in_map_iff; intros [d [<- _]].
  destruct (invalid_char d) eqn:E; [reflexivity|].
  rewrite invalid_not_allowed in E; now apply negb_false_iff in E.
Qed.

(** ** The sanitizer *)

Lemma GetSectionString_string (s : jsstring) :
  GetSectionString (JSString s) = Return (replace_class invalid_char 46 s).
Proof. reflexivity. Qed.

Lemma replace_class_idempotent (s : jsstring) :
  replace_class invalid_char 46 (replace_class invalid_char 46 s)
  = replace_class invalid_char 46 s.
Proof.
  unfold replace_class; rewrite map_map; apply map_ext; intros c.
  destruct (invalid_char c) eqn:E; [reflexivity|now rewrite E].
Qed.

(** C9.  On every string, the empty one included, [GetSectionString]
    resolves to a string of the same length in which exactly the code units
    outside [0-9 a-z A-Z - .] are replaced by a dot, and applying it to its
    own result changes nothing. *)
Theorem GetSectionString_sanitizes (s : jsstring) :
  exists t,
    GetSectionString (JSString s) = Return t
    /\ length t = length s
    /\ (forall i c, nth_error s i = Some c ->
          nth_error t i = Some (if allowed_char c then c else 46))
    /\ GetSectionString (JSString t) = Return t.
Proof.
  exists (replace_class invalid_char 46 s); repeat split.
  - apply length_map.
  - intros i c H; unfold replace_class.
    rewrite nth_error_map, H; simpl.
    rewrite invalid_not_allowed; now destruct (allowed_char c).
  - rewrite GetSectionString_string; f_equal.
    apply replace_class_idempotent.
Qed.

(** ** The tokenizer *)

Section Tokenizer.

Lemma fold_left_push {A B : Type} (f : list B -> A -> list B)
  (g : A -> list B) (l : list A) (init : list B) :
  (forall st x, f st x = st ++ g x) ->
  fold_left f l init = init ++ flat_map g l.
Proof.
  intros Hf; revert init; induction l as [|a l IH]; intros init; simpl.
  - now rewrite app_nil_r.
  - now rewrite IH, Hf, app_assoc.
Qed.

(** The callback only ever appends to the array. *)
Lemma ParseSection_step_push (part : jsstring) (pIdx : nat)
  (pArr : list jsstring) (result : VersionSection) :
  ParseSection_step part pIdx pArr result
  = result ++
    (if JS.eqb (trim part) [] then
       if (Z.of_nat pIdx <? Z.of_nat (length pArr) - 1)%Z then [Num 0] else []
     else [part_of_token part]).
Proof.
  unfold ParseSection_step, part_of_token.
  destruct (JS.eqb (trim part) []).
  - destruct (_ <? _)%Z; [reflexivity|now rewrite app_nil_r].
  - destruct (parseInt part) as [num|]; [|reflexivity].
    now destruct (num >=? 0)%Z.
Qed.

Lemma combine_seq_snoc {A : Type} (a : list A) (z : A) (k : nat) :
  combine (seq k (length (a ++ [z]))) (a ++ [z])
  = combine (seq k (length a)) a ++ [((k + length a)%nat, z)].
Proof.
  revert k; induction a as [|x a IH]; intros k; simpl.
  - now rewrite Nat.add_0_r.
  - rewrite IH; simpl; repeat f_equal; lia.
Qed.

Lemma in_combine_seq {A : Type} (a : list A) (k i : nat) (x : A) :
  In (i, x) (combine (seq k (length a)) a) -> (i < k + length a)%nat.
Proof.
  intros H; apply in_combine_l in H; apply in_seq in H; lia.
Qed.

Lemma flat_map_ext_in {A B : Type} (f g : A -> list B) (l : list A) :
  (forall x, In x l -> f x = g x) -> flat_map f l = flat_map g l.
Proof.
  induction l as [|a l IH]; intros H; simpl; [reflexivity|].
  rewrite (H a (or_introl eq_refl)), IH; [reflexivity|].
  intros x Hx; apply H; now right.
Qed.

Lemma flat_map_combine_snd {A B : Type} (g : A -> list B) (a : list A)
  (k : nat) :
  flat_map (fun ix : nat * A => g (snd ix)) (combine (seq k (length a)) a)
  = flat_map g a.
Proof.
  revert k; induction a as [|x a IH]; intros k; simpl; [reflexivity|].
  now rewrite IH.
Qed.

(** Tokens of a sanitized section hold no white space, so [trim] leaves
    them as they are. *)
Lemma split_all_in (sep : codeunit) (s t : jsstring) (c : codeunit) :
  In t (split_all sep s) -> In c t -> In c s /\ c <> sep.
Proof.
  revert t; induction s as [|d r IH]; intros t; simpl.
  - intros [<-|[]] [].
  - destruct (N.eqb_spec d sep) as [->|Hd].
    + intros [<-|Ht] Hc; [destruct Hc|].
      destruct (IH t Ht Hc); auto.
    + pose proof (split_all_not_nil sep r) as Hn.
      destruct (split_all sep r) as [|t0 ts]; [contradiction|].
      intros [<-|Ht] Hc.
      * destruct Hc as [<-|Hc]; [auto|].
        destruct (IH t0 (or_introl eq_refl) Hc); auto.
      * destruct (IH t (or_intror Ht) Hc); auto.
Qed.

Lemma trim_no_white (t : jsstring) :
  (forall c, In c t -> isWhiteSpace c = false) ->
  (JS.eqb (trim t) [] = true <-> t = []).
Proof.
  intros H; rewrite eqb_nil_true, trim_nil_iff.
  destruct t as [|c r]; simpl; [tauto|].
  rewrite (H c (or_introl eq_refl)); simpl; split; discriminate.
Qed.

Lemma token_allowed (s t : jsstring) (c : codeunit) :
  In t (split_all 46 (replace_class invalid_char 46 s)) -> In c t ->
  allowed_char c = true /\ c <> 46.
Proof.
  intros Ht Hc; destruct (split_all_in _ _ _ _ Ht Hc) as [Hs Hn].
  split; [now apply sanitized_allowed in Hs|exact Hn].
Qed.

Lemma token_trim (s t : jsstring) :
  In t (split_all 46 (replace_class invalid_char 46 s)) ->
  JS.eqb (trim t) [] = match t with [] => true | _ => false end.
Proof.
  intros Ht.
  assert (W : forall c, In c t -> isWhiteSpace c = false).
  { intros c Hc; apply allowed_not_white.
    now destruct (token_allowed s t c Ht Hc). }
  pose proof (trim_no_white t W) as E.
  destruct t as [|c r].
  - now apply E.
  - destruct (JS.eqb (trim (c :: r)) []); [|reflexivity].
    discriminate (proj1 E eq_refl).
Qed.

(** The array [ParseSection] builds, token by token. *)
Lemma tokenize_tokens (s : jsstring) :
  let tokens := split_all 46 (replace_class invalid_char 46 s) in
  tokenize s = flat_map emit_inner (removelast tokens)
               ++ emit_last (last tokens []).
Proof.
  intros tokens; unfold tokenize, forEach; fold tokens.
  assert (Hin : forall t, In t tokens ->
            JS.eqb (trim t) [] = match t with [] => true | _ => false end)
    by (intros t; apply token_trim).
  pose proof (split_all_not_nil 46 (replace_class invalid_char 46 s)) as Hn.
  fold tokens in Hn.
  rewrite (fold_left_push _
    (fun ix : nat * jsstring =>
       if JS.eqb (trim (snd ix)) [] then
         if (Z.of_nat (fst ix) <? Z.of_nat (length tokens) - 1)%Z
         then [Num 0] else []
       else [part_of_token (snd ix)]))
    by (intros; apply ParseSection_step_push).
  simpl.
  destruct (exists_last Hn) as [a [z E]].
  rewrite E in *; rewrite removelast_last, last_last.
  rewrite (combine_seq_snoc a z 0), flat_map_app; simpl.
  rewrite app_nil_r; f_equal.
  - rewrite <- (flat_map_combine_snd emit_inner a 0).
    apply flat_map_ext_in; intros [i x] Hix; simpl.
    pose proof (in_combine_seq _ _ _ _ Hix) as Hi.
    rewrite (Hin x) by (apply in_or_app; left; now apply in_combine_r in Hix).
    rewrite length_app; simpl.
    destruct x; [|reflexivity].
    replace (_ <? _)%Z with true; [reflexivity|].
    symmetry; apply Z.ltb_lt; lia.
  - rewrite (Hin z) by (apply in_or_app; right; now left).
    rewrite length_app; simpl.
    destruct z; [|reflexivity].
    replace (_ <? _)%Z with false; [reflexivity|].
    symmetry; apply Z.ltb_ge; lia.
Qed.

Lemma ParseSection_string (s : jsstring) :
  ParseSection (JSString s) = Return (tokenize s).
Proof. reflexivity. Qed.

End Tokenizer.

(** C6.  [ParseSection] pushes the integer 0 for an empty token that is not
    the last one of the split and nothing for an empty last token; hence the
    empty section has no parts, [a..b] has the parts [a], 0, [b], and [a.]
    the one part [a]. *)
Theorem ParseSection_empty_tokens (section : jsstring) :
  (let tokens := split 46 None (replace_class invalid_char 46 section) in
   ParseSection (JSString section)
   = Return (flat_map emit_inner (removelast tokens)
             ++ emit_last (last tokens [])))
  /\ ParseSection (JSString (str "")) = Return []
  /\ ParseSection (JSString (str "a..b"))
     = Return [Str (str "a"); Num 0; Str (str "b")]
  /\ ParseSection (JSString (str "a.")) = Return [Str (str "a")].
Proof.
  split; [|repeat apply conj; reflexivity].
  cbv zeta; unfold split.
  rewrite ParseSection_string; f_equal; apply tokenize_tokens.
Qed.

(** ** The parser and the synthesizer on strings *)

Section Synthesizer.

Lemma ParseVersion_string (v : jsstring) :
  ParseVersion (JSString v) = Return (parsed v).
Proof.
  unfold ParseVersion, parsed, split.
  pose proof (split_all_not_nil 45 v) as Hn.
  destruct (split_all 45 v) as [|a [|p l]]; [contradiction|reflexivity|].
  pose proof (split_all_not_nil 43 p) as Hp.
  cbn [firstn nth length Nat.ltb Nat.leb index nth_error hd].
  rewrite !ParseSection_string; cbn [await].
  destruct (split_all 43 p) as [|x [|b l']]; [contradiction| |]; reflexivity.
Qed.

Lemma firstThree_forallb (release : VersionSection) :
  firstThreeVersionPartsAreDigits release
  = forallb is_Num (firstn 3 release).
Proof.
  unfold firstThreeVersionPartsAreDigits.
  destruct release as [|[a|a] [|[b|b] [|[c|c] l]]]; try reflexivity;
    cbn [length]; rewrite ?Nat.min_l by (simpl; lia);
    replace (Nat.min (S (S (S (length l)))) 3) with 3%nat by lia;
    reflexivity.
Qed.

(** [getSemver] on a string that is not blank: the library's answer when it
    has one, the assembled parts otherwise. *)
Lemma getSemver_string (v : jsstring) :
  trim v <> [] ->
  getSemver_default v
  = Return (match Semver.valid v with
            | Some result => result
            | None => assemble (parsed v)
            end).
Proof.
  intros Hv; unfold getSemver_default, getSemver.
  apply eqb_nil_false in Hv; rewrite Hv.
  destruct (Semver.valid v); [reflexivity|].
  cbn [github plugin_ParseVersion]; now rewrite ParseVersion_string.
Qed.

Lemma suffix_length (sep : jsstring) (parts : VersionSection)
  (result : jsstring) :
  (if (0 <? length parts)%nat
   then result ++ sep ++ join_array (str ".") parts else result)
  = result ++ suffix sep parts.
Proof.
  destruct parts; simpl; [now rewrite app_nil_r|reflexivity].
Qed.

(** The two branches of [assemble]. *)
Lemma assemble_non_numeric (sections : Version) :
  forallb is_Num (firstn 3 (Release sections)) = false ->
  assemble sections
  = str "0.0.0" ++ suffix (str "-") (Release sections)
    ++ suffix (str "-") (Prerelease sections)
    ++ suffix (str "+") (BuildMetadata sections).
Proof.
  intros H; unfold assemble.
  rewrite firstThree_forallb, H, !suffix_length.
  now rewrite <- !app_assoc.
Qed.

Lemma assemble_numeric (sections : Version) :
  forallb is_Num (firstn 3 (Release sections)) = true ->
  Release sections <> [] ->
  assemble sections
  = join_array (str ".") (firstn 3 (Release sections))
    ++ concat (repeat (str ".0") (3 - length (Release sections)))
    ++ suffix (str "-") (skipn 3 (Release sections))
    ++ suffix (str "-") (Prerelease sections)
    ++ suffix (str "+") (BuildMetadata sections).
Proof.
  intros H Hn; unfold assemble.
  rewrite firstThree_forallb, H, !suffix_length.
  destruct (Release sections) as [|a [|b [|c [|d l]]]]; [contradiction|..];
    cbn [length Nat.ltb Nat.leb Nat.min Nat.sub slice slice_from skipn repeat
         concat suffix];
    rewrite ?app_nil_r, <- ?app_assoc; try reflexivity.
Qed.

End Synthesizer.

(** C5.  [getSemver] is rejected exactly for an argument that is not a
    string and for a string that is empty or white space only, in both cases
    with the one error the source throws for these two causes and whatever is
    passed as [defaultPlugin]; for every other string, with the plugin passed
    as [defaultPlugin], it resolves to a string. *)
Theorem getSemver_fails_iff (version : jsval) :
  (forall defaultPlugin, typeof version <> TString ->
   getSemver version defaultPlugin = Throw (version_blank_error version))
  /\ (forall defaultPlugin s,
      version = JSString s -> forallb isWhiteSpace s = true ->
      getSemver version defaultPlugin = Throw (version_blank_error version))
  /\ (forall s, version = JSString s -> forallb isWhiteSpace s = false ->
      exists result, getSemver version (Some github) = Return result)
  /\ ((exists e, getSemver version (Some github) = Throw e)
      <-> typeof version <> TString
          \/ exists s, version = JSString s /\ trim s = []).
Proof.
  assert (B : forall dp s, forallb isWhiteSpace s = true ->
            getSemver (JSString s) dp
            = Throw (version_blank_error (JSString s))).
  { intros dp s Hs; apply trim_nil_iff, eqb_nil_true in Hs.
    unfold getSemver; now rewrite Hs. }
  assert (R : forall s, forallb isWhiteSpace s = false ->
            exists result, getSemver (JSString s) (Some github)
                           = Return result).
  { intros s Hs; eexists; apply getSemver_string.
    rewrite trim_nil_iff, Hs; discriminate. }
  split; [|split; [|split]].
  - intros dp; destruct version; intros H; try reflexivity; now destruct H.
  - intros dp s ->; apply B.
  - intros s ->; apply R.
  - split.
    + intros [e He]; destruct version as [| | | |s];
        try (left; discriminate).
      right; exists s; split; [reflexivity|].
      apply trim_nil_iff; destruct (forallb isWhiteSpace s) eqn:W;
        [reflexivity|].
      destruct (R s W) as [r Hr]; rewrite Hr in He; discriminate.
    + intros [H|[s [-> Hs]]].
      * eexists; destruct version; try reflexivity; now destruct H.
      * eexists; apply B; now apply trim_nil_iff.
Qed.

(** The rejections the test suite and the specification name, with the
    message the source builds. *)
Example getSemver_rejects_42 :
  getSemver (JSNumber 42) (Some github)
  = Throw (Error (str "Parameter 'version' (42) is not a string, or empty, or consists only of whitespace characters.")).
Proof. reflexivity. Qed.

Example getSemver_rejects_blank :
  getSemver_default (str "")
  = Throw (Error (str "Parameter 'version' () is not a string, or empty, or consists only of whitespace characters."))
  /\ getSemver_default (str "   ")
     = Throw (Error (str "Parameter 'version' (   ) is not a string, or empty, or consists only of whitespace characters.")).
Proof. split; reflexivity. Qed.

(** C5 at the number 42, at a string of three spaces and at [1.2]. *)
Lemma getSemver_fails_iff_witness :
  getSemver (JSNumber 42) None = Throw (version_blank_error (JSNumber 42))
  /\ getSemver (JSString (str "   ")) (Some github)
     = Throw (version_blank_error (JSString (str "   ")))
  /\ exists result,
       getSemver (JSString (str "1.2")) (Some github) = Return result.
Proof.
  split; [|split].
  - apply (proj1 (getSemver_fails_iff (JSNumber 42))); discriminate.
  - apply (proj1 (proj2 (getSemver_fails_iff (JSString (str "   "))))
             (Some github) (str "   ")); reflexivity.
  - apply (proj1 (proj2 (proj2 (getSemver_fails_iff (JSString (str "1.2")))))
             (str "1.2")); reflexivity.
Defined.

(** C7.  For a string that is not blank, that the library does not accept,
    whose first three release parts are not all numbers and whose numbers
    are at most [MAX_SAFE_INTEGER], the ones JavaScript holds and prints
    exactly, [getSemver] resolves to [0.0.0], then a hyphen and all release
    parts joined with dots (the release is not empty in this case), then the
    prerelease and build metadata suffixes. *)
Theorem getSemver_non_numeric_release (v : jsstring) :
  trim v <> [] ->
  Semver.valid v = None ->
  forallb is_Num (firstn 3 (Release (parsed v))) = false ->
  safe_version (parsed v) ->
  ParseVersion (JSString v) = Return (parsed v)
  /\ Release (parsed v) <> []
  /\ getSemver_default v
     = Return (str "0.0.0-" ++ join_array (str ".") (Release (parsed v))
               ++ suffix (str "-") (Prerelease (parsed v))
               ++ suffix (str "+") (BuildMetadata (parsed v))).
Proof.
  intros Hv Hl Hr _.
  assert (Hn : Release (parsed v) <> []).
  { intros E; rewrite E in Hr; discriminate. }
  split; [apply ParseVersion_string|split; [exact Hn|]].
  rewrite (getSemver_string v Hv), Hl, (assemble_non_numeric _ Hr).
  destruct (Release (parsed v)); [contradiction|reflexivity].
Qed.

(** C7 at [arbitrary text]. *)
Lemma getSemver_non_numeric_release_witness :
  getSemver_default (str "arbitrary text")
  = Return (str "0.0.0-arbitrary.text").
Proof.
  refine (proj2 (proj2
    (getSemver_non_numeric_release (str "arbitrary text") _ _ _ _))).
  - vm_compute; discriminate.
  - vm_compute; reflexivity.
  - vm_compute; reflexivity.
  - safe_version_by_computation.
Defined.

(** The numeric branch on a release that is not empty: the first three
    release parts joined with dots, [.0] for every missing one, the parts
    behind the third after a hyphen, then the prerelease and build metadata
    suffixes. *)
Lemma getSemver_numeric_release (v : jsstring) :
  trim v <> [] ->
  Semver.valid v = None ->
  forallb is_Num (firstn 3 (Release (parsed v))) = true ->
  Release (parsed v) <> [] ->
  getSemver_default v
  = Return (join_array (str ".") (firstn 3 (Release (parsed v)))
            ++ concat (repeat (str ".0") (3 - length (Release (parsed v))))
            ++ suffix (str "-") (skipn 3 (Release (parsed v)))
            ++ suffix (str "-") (Prerelease (parsed v))
            ++ suffix (str "+") (BuildMetadata (parsed v))).
Proof.
  intros Hv Hl Hr Hn.
  now rewrite (getSemver_string v Hv), Hl, (assemble_numeric _ Hr Hn).
Qed.

Example getSemver_pads_and_overflows :
  getSemver_default (str "1") = Return (str "1.0.0")
  /\ getSemver_default (str "1.2") = Return (str "1.2.0")
  /\ getSemver_default (str "1.2.3.4") = Return (str "1.2.3-4")
  /\ getSemver_default (str "1.2.3.a.b.c") = Return (str "1.2.3-a.b.c")
  /\ getSemver_default (str "1.2.3.4-alpha") = Return (str "1.2.3-4-alpha").
Proof. repeat apply conj; vm_compute; reflexivity. Qed.

(** C4.  A string that starts with a hyphen has an empty release; the
    library does not accept it, the test on the first release parts holds
    for want of parts, and [getSemver] pads with two [.0] only: the result
    has an empty first component. *)
Theorem getSemver_empty_release :
  trim (str "-alpha") <> []
  /\ Semver.valid (str "-alpha") = None
  /\ Release (parsed (str "-alpha")) = []
  /\ firstThreeVersionPartsAreDigits (Release (parsed (str "-alpha"))) = true
  /\ getSemver_default (str "-alpha") = Return (str ".0.0-alpha")
  /\ Semver.valid (str ".0.0-alpha") = None.
Proof. repeat apply conj; vm_compute; congruence. Qed.

(** C2.  [split('-', 2)] cuts the array, not the string: what follows a
    second hyphen is in no section of the parsed version, and so is what
    follows a second plus sign. *)
Theorem ParseVersion_drops_after_second_delimiter :
  ParseVersion (JSString (str "1.0-alpha-2"))
  = Return {| Release := [Num 1; Num 0];
              Prerelease := [Str (str "alpha")];
              BuildMetadata := [] |}
  /\ ParseVersion (JSString (str "1.0-rc+b1+b2"))
     = Return {| Release := [Num 1; Num 0];
                 Prerelease := [Str (str "rc")];
                 BuildMetadata := [Str (str "b1")] |}
  /\ getSemver_default (str "1.0-alpha-2") = Return (str "1.0.0-alpha").
Proof. repeat apply conj; vm_compute; reflexivity. Qed.

(** C3.  [parseInt] reads the digits a token starts with and ignores the
    rest, and reads hexadecimal behind [0x]: a token that is not all digits
    can be pushed as a number. *)
Theorem ParseSection_digit_prefix :
  ParseSection (JSString (str "4a")) = Return [Num 4]
  /\ ParseSection (JSString (str "0x1F")) = Return [Num 31]
  /\ ParseSection (JSString (str "v1")) = Return [Str (str "v1")]
  /\ getSemver_default (str "1.2.3rc1") = Return (str "1.2.3").
Proof. repeat apply conj; vm_compute; reflexivity. Qed.

(** ** Decimal digits and their values *)

Section Digits.

Lemma isDigit_cases (c : codeunit) :
  isDigit c = true ->
  c = 48 \/ c = 49 \/ c = 50 \/ c = 51 \/ c = 52 \/ c = 53 \/ c = 54
  \/ c = 55 \/ c = 56 \/ c = 57.
Proof. intros H; char_lia. Qed.

Lemma digits_of_uint_digits (d : Decimal.uint) :
  forallb isDigit (digits_of_uint d) = true.
Proof. induction d; simpl; auto. Qed.

Lemma uint_of_digits_of_uint (d : Decimal.uint) :
  uint_of_digits (digits_of_uint d) = d.
Proof. induction d; simpl; congruence. Qed.

Lemma digits_of_uint_of_digits (ds : jsstring) :
  forallb isDigit ds = true -> digits_of_uint (uint_of_digits ds) = ds.
Proof.
  induction ds as [|c r IH]; simpl; [reflexivity|].
  intros H; apply andb_true_iff in H; destruct H as [Hc Hr].
  specialize (IH Hr).
  destruct (isDigit_cases c Hc) as [E|[E|[E|[E|[E|[E|[E|[E|[E|E]]]]]]]]];
    subst c; simpl; now rewrite IH.
Qed.

(** A numeric identifier is the normal form of its own value. *)
Lemma numeric_identifier_normal (s : jsstring) :
  Semver.NUMERICIDENTIFIER s = true ->
  forallb isDigit s = true
  /\ Decimal.unorm (uint_of_digits s) = uint_of_digits s.
Proof.
  destruct s as [|c r]; simpl; [discriminate|].
  destruct (N.eqb_spec c 48) as [->|Hc].
  - destruct r; [split; reflexivity|discriminate].
  - intros H; apply andb_true_iff in H; destruct H as [Hd Hr].
    rewrite Hd, Hr; split; [reflexivity|].
    destruct (isDigit_cases c Hd) as [E|[E|[E|[E|[E|[E|[E|[E|[E|E]]]]]]]]];
      subst c; solve [contradiction | reflexivity].
Qed.

Lemma decimal_value_nonneg (ds : jsstring) : (0 <= decimal_value ds)%Z.
Proof. unfold decimal_value; lia. Qed.

Lemma Number_toString_of_N (n : N) :
  Number_toString (Z.of_N n) = digits_of_uint (N.to_uint n).
Proof.
  unfold Number_toString; rewrite Zabs2N.id.
  replace (Z.of_N n <? 0)%Z with false; [reflexivity|].
  symmetry; apply Z.ltb_ge; lia.
Qed.

(** Rendering the value of a numeric identifier gives the identifier. *)
Lemma Number_toString_decimal_value (s : jsstring) :
  Semver.NUMERICIDENTIFIER s = true ->
  Number_toString (decimal_value s) = s.
Proof.
  intros H; destruct (numeric_identifier_normal s H) as [Hd Hn].
  unfold decimal_value; rewrite Number_toString_of_N.
  rewrite DecimalN.Unsigned.to_of, Hn.
  now apply digits_of_uint_of_digits.
Qed.

(** The rendering of a natural number is a numeric identifier. *)
Lemma unorm_numeric_identifier (d : Decimal.uint) :
  Decimal.unorm d = d ->
  Semver.NUMERICIDENTIFIER (digits_of_uint d) = true.
Proof.
  intros H; destruct d; simpl; try apply digits_of_uint_digits;
    try discriminate.
  rewrite DecimalFacts.unorm_D0 in H; unfold Decimal.unorm in H.
  destruct (Decimal.nzhead d) eqn:E; try discriminate.
  - injection H as <-; reflexivity.
  - destruct (DecimalFacts.nzhead_nonzero _ _ E).
Qed.

Lemma Number_toString_numeric_identifier (n : Z) :
  (0 <= n)%Z -> Semver.NUMERICIDENTIFIER (Number_toString n) = true.
Proof.
  intros H; rewrite <- (Z2N.id n H), Number_toString_of_N.
  apply unorm_numeric_identifier.
  now rewrite <- DecimalN.Unsigned.to_of, DecimalN.Unsigned.of_to.
Qed.

End Digits.

(** ** Cutting, splitting and joining *)

Section CutSplitJoin.

Variable sep : codeunit.

Lemma cut_spec (s : jsstring) :
  ~ In sep (fst (cut sep s))
  /\ s = fst (cut sep s)
         ++ match snd (cut sep s) with
            | Some r => sep :: r
            | None => []
            end.
Proof.
  induction s as [|c r [IH1 IH2]]; simpl; [auto|].
  destruct (N.eqb_spec c sep) as [->|Hc]; simpl; [auto|].
  destruct (cut sep r) as [a b]; simpl in *; split.
  - intros [E|F]; [now apply Hc|now apply IH1].
  - now rewrite IH2 at 1.
Qed.

Lemma cut_app_some (a r : jsstring) :
  ~ In sep a -> cut sep (a ++ sep :: r) = (a, Some r).
Proof.
  induction a as [|c a IH]; simpl; intros H.
  - now rewrite N.eqb_refl.
  - destruct (N.eqb_spec c sep) as [->|Hc]; [exfalso; auto|].
    rewrite IH; auto.
Qed.

Lemma cut_none (a : jsstring) :
  ~ In sep a -> cut sep a = (a, None).
Proof.
  induction a as [|c a IH]; simpl; intros H; [reflexivity|].
  destruct (N.eqb_spec c sep) as [->|Hc]; [exfalso; auto|].
  rewrite IH; auto.
Qed.

Lemma join_cons_head (c : codeunit) (t : jsstring) (ts : list jsstring) :
  join [sep] ((c :: t) :: ts) = c :: join [sep] (t :: ts).
Proof. destruct ts; reflexivity. Qed.

Lemma join_split_all (s : jsstring) : join [sep] (split_all sep s) = s.
Proof.
  induction s as [|c r IH]; simpl; [reflexivity|].
  pose proof (split_all_not_nil sep r) as Hn.
  destruct (c =? sep) eqn:E.
  - apply N.eqb_eq in E; subst c.
    destruct (split_all sep r); [contradiction|].
    simpl in *; now rewrite IH.
  - destruct (split_all sep r); [contradiction|].
    now rewrite join_cons_head, IH.
Qed.

Lemma split_all_no_sep (t : jsstring) :
  ~ In sep t -> split_all sep t = [t].
Proof.
  induction t as [|c t IH]; simpl; intros H; [reflexivity|].
  destruct (N.eqb_spec c sep) as [->|Hc]; [exfalso; auto|].
  rewrite IH; auto.
Qed.

Lemma split_all_app (t r : jsstring) :
  ~ In sep t -> split_all sep (t ++ sep :: r) = t :: split_all sep r.
Proof.
  induction t as [|c t IH]; simpl; intros H.
  - now rewrite N.eqb_refl.
  - destruct (N.eqb_spec c sep) as [->|Hc]; [exfalso; auto|].
    rewrite IH; auto.
Qed.

(** Splitting a join of separator-free pieces gives the pieces back. *)
Lemma split_all_join (ts : list jsstring) :
  ts <> [] -> (forall t, In t ts -> ~ In sep t) ->
  split_all sep (join [sep] ts) = ts.
Proof.
  induction ts as [|t ts IH]; [contradiction|].
  intros _ H; destruct ts as [|u ts].
  - apply split_all_no_sep, H; now left.
  - change (join [sep] (t :: u :: ts)) with (t ++ sep :: join [sep] (u :: ts)).
    rewrite split_all_app by (apply H; now left).
    rewrite IH; [reflexivity|discriminate|].
    intros x Hx; apply H; now right.
Qed.

End CutSplitJoin.

(** ** The parts the tokenizer pushes *)

Section Parts.

Import Semver.

Lemma takeWhile_all (p : codeunit -> bool) (s : jsstring) :
  forallb p s = true -> takeWhile p s = s.
Proof.
  induction s as [|c r IH]; simpl; [reflexivity|].
  intros H; apply andb_true_iff in H; destruct H as [-> Hr].
  now rewrite IH.
Qed.

(** On a run of digits [parseInt] is the decimal value. *)
Lemma parseInt_digits (t : jsstring) :
  t <> [] -> forallb isDigit t = true ->
  parseInt t = Some (decimal_value t).
Proof.
  destruct t as [|c r]; [contradiction|]; intros _ H.
  pose proof H as Hall; simpl in H.
  apply andb_true_iff in H; destruct H as [Hc Hr].
  unfold parseInt; cbn [trimStart].
  replace (isWhiteSpace c) with false
    by (symmetry; apply not_true_is_false; intros W; char_lia).
  replace (c =? 45) with false by (symmetry; char_lia).
  replace (c =? 43) with false by (symmetry; char_lia).
  destruct r as [|x r].
  - cbn [takeWhile]; rewrite Hc; f_equal; apply Z.mul_1_l.
  - simpl in Hr; apply andb_true_iff in Hr; destruct Hr as [Hx Hr].
    replace ((x =? 120) || (x =? 88)) with false
      by (symmetry; apply orb_false_iff; char_lia).
    rewrite andb_false_r, (takeWhile_all _ _ Hall).
    f_equal; apply Z.mul_1_l.
Qed.

Lemma nonnumeric_iff (s : jsstring) :
  NONNUMERICIDENTIFIER s
  = forallb isIdentChar s && negb (forallb isDigit s).
Proof.
  unfold NONNUMERICIDENTIFIER; induction s as [|c r IH]; [reflexivity|].
  cbn [dropWhile forallb]; unfold isIdentChar at 2.
  destruct (isDigit c) eqn:D; cbn [orb andb]; [exact IH|].
  now rewrite andb_true_r.
Qed.

Lemma digit_ident (c : codeunit) : isDigit c = true -> isIdentChar c = true.
Proof. intros H; unfold isIdentChar; now rewrite H. Qed.

Lemma digits_ident (s : jsstring) :
  forallb isDigit s = true -> forallb isIdentChar s = true.
Proof.
  rewrite !forallb_forall; intros H c Hc; apply digit_ident; auto.
Qed.

Lemma PRERELEASEIDENTIFIER_ident (t : jsstring) :
  PRERELEASEIDENTIFIER t = true -> forallb isIdentChar t = true.
Proof.
  unfold PRERELEASEIDENTIFIER; intros H; apply orb_true_iff in H.
  destruct H as [H|H].
  - now apply digits_ident, numeric_identifier_normal.
  - rewrite nonnumeric_iff in H; now apply andb_true_iff in H.
Qed.

Lemma part_of_token_good (t : jsstring) :
  t <> [] -> forallb isIdentChar t = true -> good_part (part_of_token t).
Proof.
  intros Hn Hi.
  assert (S : good_part (Str t) \/ exists n, parseInt t = Some n /\ (0 <= n)%Z).
  { destruct (forallb isDigit t) eqn:D.
    - right; eexists; split; [now apply parseInt_digits|].
      apply decimal_value_nonneg.
    - left; repeat split; assumption. }
  unfold part_of_token; destruct (parseInt t) as [num|] eqn:P.
  - destruct (Z.geb_spec num 0) as [G|G]; [simpl; lia|].
    destruct S as [S|(n & E & Hn0)]; [exact S|].
    injection E as <-; lia.
  - destruct S as [S|(n & E & _)]; [exact S|discriminate].
Qed.

Lemma allowed_ident (c : codeunit) :
  allowed_char c = true -> c <> 46 -> isIdentChar c = true.
Proof. intros H N; char_lia. Qed.

Lemma token_ident (s t : jsstring) :
  In t (split_all 46 (replace_class invalid_char 46 s)) ->
  forallb isIdentChar t = true.
Proof.
  intros Ht; apply forallb_forall; intros c Hc.
  destruct (token_allowed s t c Ht Hc); now apply allowed_ident.
Qed.

(** Every part of a tokenized section is a good one. *)
Lemma tokenize_good (s : jsstring) : Forall good_part (tokenize s).
Proof.
  rewrite tokenize_tokens; cbv zeta.
  pose proof (token_ident s) as Hi.
  pose proof (split_all_not_nil 46 (replace_class invalid_char 46 s)) as Hn.
  destruct (exists_last Hn) as [a [z E]]; rewrite E in *.
  rewrite removelast_last, last_last.
  apply Forall_app; split.
  - apply Forall_flat_map, Forall_forall; intros t Ht.
    assert (I : forallb isIdentChar t = true)
      by (apply Hi, in_or_app; now left).
    destruct t as [|c r]; simpl.
    + constructor; [simpl; lia|constructor].
    + constructor; [now apply part_of_token_good|constructor].
  - assert (I : forallb isIdentChar z = true)
      by (apply Hi, in_or_app; right; now left).
    destruct z as [|c r]; simpl; [constructor|].
    constructor; [now apply part_of_token_good|constructor].
Qed.

Lemma parsed_good (v : jsstring) :
  Forall good_part (Release (parsed v))
  /\ Forall good_part (Prerelease (parsed v))
  /\ Forall good_part (BuildMetadata (parsed v)).
Proof.
  unfold parsed; cbn [Release Prerelease BuildMetadata].
  repeat split; try apply tokenize_good.
  - destruct (split_all 45 v) as [|? [|? ?]];
      try constructor; apply tokenize_good.
  - destruct (split_all 45 v) as [|? [|p ?]]; try constructor.
    destruct (split_all 43 p) as [|? [|? ?]];
      try constructor; apply tokenize_good.
Qed.

(** How a good part reads as text. *)
Lemma good_part_toString (p : SectionPart) :
  good_part p ->
  PRERELEASEIDENTIFIER (strnum_toString p) = true
  /\ BUILDIDENTIFIER (strnum_toString p) = true
  /\ forallb isIdentChar (strnum_toString p) = true.
Proof.
  destruct p as [n|s]; simpl.
  - intros Hn.
    pose proof (Number_toString_numeric_identifier n Hn) as N.
    pose proof (numeric_identifier_normal _ N) as [D _].
    apply digits_ident in D.
    unfold PRERELEASEIDENTIFIER, BUILDIDENTIFIER; rewrite N, D.
    destruct (Number_toString n); [discriminate N|auto].
  - intros (Hn & Hi & Hd).
    unfold PRERELEASEIDENTIFIER, BUILDIDENTIFIER.
    rewrite nonnumeric_iff, Hi, Hd, orb_true_r.
    destruct s; [contradiction|auto].
Qed.

End Parts.

(** ** Building strings the library accepts *)

Section Accepted.

Import Semver.

Lemma in_join (sep c : codeunit) (ts : list jsstring) :
  In c (join [sep] ts) -> c = sep \/ exists t, In t ts /\ In c t.
Proof.
  induction ts as [|t ts IH]; [intros []|].
  destruct ts as [|u ts].
  - intros H; right; exists t; split; [now left|exact H].
  - change (join [sep] (t :: u :: ts)) with (t ++ sep :: join [sep] (u :: ts)).
    intros H; apply in_app_or in H; destruct H as [H|[H|H]].
    + right; exists t; split; [now left|exact H].
    + now left.
    + destruct (IH H) as [E|(x & Hx & Hc)]; [now left|].
      right; exists x; split; [now right|exact Hc].
Qed.

Lemma ident_not_in (t : jsstring) (c : codeunit) :
  forallb isIdentChar t = true -> isIdentChar c = false -> ~ In c t.
Proof.
  rewrite forallb_forall; intros H Hc Hin.
  rewrite (H c Hin) in Hc; discriminate.
Qed.

Lemma digits_not_in (t : jsstring) (c : codeunit) :
  forallb isDigit t = true -> isDigit c = false -> ~ In c t.
Proof.
  rewrite forallb_forall; intros H Hc Hin.
  rewrite (H c Hin) in Hc; discriminate.
Qed.

Lemma texts_no_dot (parts : VersionSection) :
  Forall good_part parts ->
  forall t, In t (map strnum_toString parts) -> ~ In 46 t.
Proof.
  intros G t Ht; apply in_map_iff in Ht; destruct Ht as (p & <- & Hp).
  rewrite Forall_forall in G.
  destruct (good_part_toString p (G p Hp)) as (_ & _ & I).
  now apply (ident_not_in _ 46 I).
Qed.

(** Parts joined with dots read as a prerelease and as build metadata. *)
Lemma join_PRERELEASE (parts : VersionSection) :
  parts <> [] -> Forall good_part parts ->
  PRERELEASE (join_array (str ".") parts) = true.
Proof.
  intros Hn G; unfold PRERELEASE, join_array.
  change (str ".") with [46].
  rewrite split_all_join;
    [|destruct parts; [contradiction|discriminate]|now apply texts_no_dot].
  apply forallb_forall; intros t Ht.
  apply in_map_iff in Ht; destruct Ht as (p & <- & Hp).
  rewrite Forall_forall in G; now apply good_part_toString, G.
Qed.

Lemma join_BUILD (parts : VersionSection) :
  parts <> [] -> Forall good_part parts ->
  BUILD (join_array (str ".") parts) = true.
Proof.
  intros Hn G; unfold BUILD, join_array.
  change (str ".") with [46].
  rewrite split_all_join;
    [|destruct parts; [contradiction|discriminate]|now apply texts_no_dot].
  apply forallb_forall; intros t Ht.
  apply in_map_iff in Ht; destruct Ht as (p & <- & Hp).
  rewrite Forall_forall in G; now apply good_part_toString, G.
Qed.

(** Splitting around a code unit that is not the separator: the pieces on
    its two sides grow together. *)
Lemma split_all_glue (sep c : codeunit) (X Y : jsstring)
  (xs ys : list jsstring) (x y : jsstring) :
  c <> sep ->
  split_all sep X = xs ++ [x] -> split_all sep Y = y :: ys ->
  split_all sep (X ++ c :: Y) = xs ++ (x ++ c :: y) :: ys.
Proof.
  intros Hc HX HY; revert xs x HX; induction X as [|d X IH]; intros xs x HX.
  - simpl in HX; destruct xs as [|? [|? ?]]; try discriminate.
    injection HX as <-; simpl.
    destruct (N.eqb_spec c sep) as [E|_]; [contradiction|].
    now rewrite HY.
  - pose proof (split_all_not_nil sep X) as Hn.
    simpl in *; destruct (d =? sep).
    + destruct xs as [|x0 xs]; simpl in HX.
      * injection HX as _ HX; contradiction.
      * injection HX as <- HX; now rewrite (IH xs x HX).
    + destruct (split_all sep X) as [|t ts]; [contradiction|].
      destruct xs as [|x0 xs]; simpl in HX.
      * injection HX as <- ->; now rewrite (IH [] t eq_refl).
      * injection HX as <- ->; now rewrite (IH (t :: xs) x eq_refl).
Qed.

Lemma PRERELEASE_hyphen (X Y : jsstring) :
  PRERELEASE X = true -> PRERELEASE Y = true ->
  PRERELEASE (X ++ str "-" ++ Y) = true.
Proof.
  unfold PRERELEASE; intros HX HY.
  destruct (exists_last (split_all_not_nil 46 X)) as (xs & x & EX).
  pose proof (split_all_not_nil 46 Y) as Hn.
  destruct (split_all 46 Y) as [|y ys] eqn:EY; [contradiction|].
  change (X ++ str "-" ++ Y) with (X ++ 45 :: Y).
  rewrite (split_all_glue 46 45 X Y xs ys x y) by (assumption || discriminate).
  rewrite EX, forallb_app in HX; simpl in HX, HY.
  apply andb_true_iff in HX; destruct HX as [Hxs Hx].
  apply andb_true_iff in Hx; destruct Hx as [Hx _].
  apply andb_true_iff in HY; destruct HY as [Hy Hys].
  rewrite forallb_app; simpl; rewrite Hxs, Hys, andb_true_r; simpl.
  unfold PRERELEASEIDENTIFIER at 1; rewrite nonnumeric_iff.
  rewrite !forallb_app; simpl.
  rewrite (PRERELEASEIDENTIFIER_ident _ Hx), (PRERELEASEIDENTIFIER_ident _ Hy).
  rewrite andb_false_r; simpl; apply orb_true_r.
Qed.

Lemma PRERELEASE_chars (p : jsstring) (c : codeunit) :
  PRERELEASE p = true -> In c p -> isIdentChar c = true \/ c = 46.
Proof.
  unfold PRERELEASE; intros H Hc.
  rewrite <- (join_split_all 46 p) in Hc.
  destruct (in_join _ _ _ Hc) as [E|(t & Ht & Hin)]; [now right|left].
  rewrite forallb_forall in H.
  pose proof (PRERELEASEIDENTIFIER_ident t (H t Ht)) as I.
  rewrite forallb_forall in I; now apply I.
Qed.

Lemma merge_pre_PRERELEASE (overflow prerelease : VersionSection) :
  Forall good_part overflow -> Forall good_part prerelease ->
  optb PRERELEASE (merge_pre overflow prerelease) = true.
Proof.
  intros GO GP; destruct overflow as [|o os], prerelease as [|p ps];
    cbn [merge_pre optb]; [reflexivity|..].
  - now apply join_PRERELEASE.
  - now apply join_PRERELEASE.
  - apply PRERELEASE_hyphen; now apply join_PRERELEASE.
Qed.

Lemma merge_pre_suffix (overflow prerelease : VersionSection) :
  suffix (str "-") overflow ++ suffix (str "-") prerelease
  = match merge_pre overflow prerelease with
    | Some p => str "-" ++ p
    | None => []
    end.
Proof.
  destruct overflow as [|o os], prerelease as [|p ps];
    cbn [merge_pre suffix]; rewrite ?app_nil_r, <- ?app_assoc; reflexivity.
Qed.

(** The strict grammar, read from left to right: three numeric identifiers
    with dots between them, a prerelease behind a hyphen, build metadata
    behind a plus sign. *)
Lemma FULLPLAIN_tail_intro (a b c : jsstring) (pre build : option jsstring) :
  NUMERICIDENTIFIER a = true -> NUMERICIDENTIFIER b = true ->
  NUMERICIDENTIFIER c = true ->
  optb PRERELEASE pre = true -> optb BUILD build = true ->
  let g := {| m1 := a; m2 := b; m3 := c; m4 := pre; m5 := build |} in
  FULLPLAIN_tail
    (render_groups g
     ++ match build with
        | Some x => str "+" ++ x
        | None => []
        end) = Some g.
Proof.
  intros Na Nb Nc Hp Hb g.
  destruct (numeric_identifier_normal a Na) as [Da _].
  destruct (numeric_identifier_normal b Nb) as [Db _].
  destruct (numeric_identifier_normal c Nc) as [Dc _].
  set (main := a ++ 46 :: b ++ 46 :: c).
  assert (Hmain : forall x, In x main -> isDigit x = true \/ x = 46).
  { intros x Hx; unfold main in Hx.
    rewrite forallb_forall in Da, Db, Dc.
    repeat (apply in_app_or in Hx; destruct Hx as [Hx|[Hx|Hx]]); auto. }
  assert (Efront : render_groups g
                   = main ++ match pre with
                             | Some p => 45 :: p
                             | None => []
                             end).
  { unfold render_groups, main, g; cbn [m1 m2 m3 m4].
    change (str ".") with [46]; change (str "-") with [45].
    destruct pre; rewrite ?app_nil_r, <- ?app_assoc; cbn [app];
      rewrite <- ?app_assoc; reflexivity. }
  assert (Hfront : ~ In 43 (render_groups g)).
  { rewrite Efront; intros Hx; apply in_app_or in Hx.
    destruct Hx as [Hx|Hx].
    - destruct (Hmain _ Hx) as [D|D]; discriminate D.
    - destruct pre as [p|]; [|destruct Hx].
      destruct Hx as [Hx|Hx]; [discriminate Hx|].
      destruct (PRERELEASE_chars p 43 Hp Hx) as [D|D]; discriminate D. }
  assert (C1 : cut 43 (render_groups g
                       ++ match build with
                          | Some x => str "+" ++ x
                          | None => []
                          end) = (render_groups g, build)).
  { destruct build as [x|].
    - now apply cut_app_some.
    - rewrite app_nil_r; now apply cut_none. }
  assert (Hm45 : ~ In 45 main).
  { intros Hx; destruct (Hmain _ Hx) as [D|D]; discriminate D. }
  assert (C2 : cut 45 (render_groups g) = (main, pre)).
  { rewrite Efront; destruct pre as [p|].
    - now apply cut_app_some.
    - rewrite app_nil_r; now apply cut_none. }
  assert (C3 : split_all 46 main = [a; b; c]).
  { unfold main.
    rewrite split_all_app by (now apply digits_not_in).
    rewrite split_all_app by (now apply digits_not_in).
    rewrite split_all_no_sep by (now apply digits_not_in).
    reflexivity. }
  unfold FULLPLAIN_tail; rewrite C1, C2, C3, Na, Nb, Nc, Hp, Hb.
  reflexivity.
Qed.

End Accepted.

(** ** What the library accepts, and what it returns *)

Section SemverFacts.

Import Semver.

Lemma dropWhile_all (p : codeunit -> bool) (s : jsstring) :
  forallb p s = true -> dropWhile p s = [].
Proof.
  induction s as [|c r IH]; simpl; [reflexivity|].
  intros H; apply andb_true_iff in H; destruct H as [-> Hr]; auto.
Qed.

(** A prerelease identifier is rendered as it was written. *)
Lemma prerelease_id_toString (id : jsstring) :
  PRERELEASEIDENTIFIER id = true ->
  strnum_toString (prerelease_id id) = id.
Proof.
  intros H; unfold prerelease_id.
  destruct (all_digits id) eqn:E; [|reflexivity].
  assert (Hd : forallb isDigit id = true)
    by (destruct id; [discriminate E|exact E]).
  cbv zeta; destruct (_ && _)%bool; [|reflexivity].
  unfold PRERELEASEIDENTIFIER, NONNUMERICIDENTIFIER in H.
  rewrite (dropWhile_all _ _ Hd), orb_false_r in H.
  now apply Number_toString_decimal_value.
Qed.

Lemma prerelease_toString (p : jsstring) :
  PRERELEASE p = true ->
  join_array (str ".") (map prerelease_id (split_all 46 p)) = p.
Proof.
  unfold PRERELEASE, join_array; intros H.
  rewrite <- (join_split_all 46 p) at 2.
  f_equal; rewrite <- (map_id (split_all 46 p)) at 2.
  rewrite map_map; apply map_ext_in; intros id Hid.
  apply prerelease_id_toString.
  rewrite forallb_forall in H; now apply H.
Qed.

(** The groups of a match, and the matched string in terms of them. *)
Lemma FULLPLAIN_tail_inv (s : jsstring) (g : groups) :
  FULLPLAIN_tail s = Some g ->
  NUMERICIDENTIFIER (m1 g) = true
  /\ NUMERICIDENTIFIER (m2 g) = true
  /\ NUMERICIDENTIFIER (m3 g) = true
  /\ optb PRERELEASE (m4 g) = true
  /\ optb BUILD (m5 g) = true
  /\ cut 43 s = (render_groups g, m5 g).
Proof.
  unfold FULLPLAIN_tail.
  pose proof (cut_spec 43 s) as [_ E1].
  destruct (cut 43 s) as [front build] eqn:C1.
  pose proof (cut_spec 45 front) as [_ E2].
  destruct (cut 45 front) as [main pre] eqn:C2.
  pose proof (join_split_all 46 main) as E3.
  destruct (split_all 46 main) as [|a [|b [|c [|]]]]; try discriminate.
  destruct (NUMERICIDENTIFIER a) eqn:Ha; [|discriminate].
  destruct (NUMERICIDENTIFIER b) eqn:Hb; [|discriminate].
  destruct (NUMERICIDENTIFIER c) eqn:Hc; [|discriminate].
  destruct (optb PRERELEASE pre) eqn:Hp; [|discriminate].
  destruct (optb BUILD build) eqn:Hq; [|discriminate].
  intros H; injection H as <-; cbn [m1 m2 m3 m4 m5].
  repeat (split; [assumption|]).
  f_equal; cbn [fst snd] in E2; rewrite E2, <- E3.
  unfold render_groups; cbn [m1 m2 m3 m4 join str map list_ascii_of_string].
  rewrite <- !app_assoc; destruct pre; reflexivity.
Qed.

Lemma FULL_inv (v : jsstring) (g : groups) :
  FULL v = Some g ->
  exists s, FULLPLAIN_tail s = Some g /\ (v = s \/ v = 118 :: s).
Proof.
  unfold FULL; intros H.
  destruct v as [|c r]; [exists []; auto|].
  destruct (N.eqb_spec c 118) as [->|Hc]; [exists r|exists (c :: r)]; auto.
Qed.

(** A string without white space is its own [trim]. *)
Lemma trim_id (s : jsstring) :
  (forall c, In c s -> isWhiteSpace c = false) -> trim s = s.
Proof.
  intros H.
  assert (T : forall t, (forall c, In c t -> isWhiteSpace c = false) ->
            trimStart t = t).
  { intros [|c t] Ht; simpl; [reflexivity|].
    now rewrite (Ht c (or_introl eq_refl)). }
  unfold trim, trimEnd; rewrite (T s H), T, rev_involutive; [reflexivity|].
  intros c Hc; apply H; now apply in_rev.
Qed.

Lemma BUILD_chars (b : jsstring) (c : codeunit) :
  BUILD b = true -> In c b -> isIdentChar c = true \/ c = 46.
Proof.
  unfold BUILD; intros H Hc.
  rewrite <- (join_split_all 46 b) in Hc.
  destruct (in_join _ _ _ Hc) as [E|(t & Ht & Hin)]; [now right|left].
  rewrite forallb_forall in H; specialize (H t Ht).
  unfold BUILDIDENTIFIER in H; destruct t; [destruct Hin|].
  rewrite forallb_forall in H; now apply H.
Qed.

(** The code units of a string [FULL] matches. *)
Lemma strict_chars (s : jsstring) (g : groups) (c : codeunit) :
  FULLPLAIN_tail s = Some g -> In c s ->
  isIdentChar c = true \/ c = 46 \/ c = 43.
Proof.
  intros H Hc.
  destruct (FULLPLAIN_tail_inv s g H) as (N1 & N2 & N3 & P & B & C).
  pose proof (cut_spec 43 s) as [_ E]; rewrite C in E; cbn [fst snd] in E.
  destruct (numeric_identifier_normal _ N1) as [D1 _].
  destruct (numeric_identifier_normal _ N2) as [D2 _].
  destruct (numeric_identifier_normal _ N3) as [D3 _].
  apply digits_ident in D1, D2, D3; rewrite forallb_forall in D1, D2, D3.
  rewrite E in Hc; unfold render_groups in Hc.
  change (str ".") with [46] in Hc.
  repeat (apply in_app_or in Hc; destruct Hc as [Hc|Hc]);
    try (destruct Hc as [<-|[]]); auto.
  - destruct (m4 g) as [p|]; [|destruct Hc].
    destruct Hc as [<-|Hc]; [now left|].
    destruct (PRERELEASE_chars p c P Hc); auto.
  - destruct (m5 g) as [b|]; [|destruct Hc].
    destruct Hc as [<-|Hc]; [auto|].
    destruct (BUILD_chars b c B Hc); auto.
Qed.

Lemma FULL_trim (v : jsstring) (g : groups) :
  FULL v = Some g -> trim v = v.
Proof.
  intros H; apply trim_id; intros c Hc.
  destruct (FULL_inv v g H) as (s & Hs & Hv).
  assert (K : isIdentChar c = true \/ c = 46 \/ c = 43 \/ c = 118).
  { destruct Hv as [->| ->].
    - destruct (strict_chars s g c Hs Hc) as [K|[K|K]]; auto.
    - destruct Hc as [<-|Hc]; [auto|].
      destruct (strict_chars s g c Hs Hc) as [K|[K|K]]; auto. }
  apply not_true_is_false; intros W; char_lia.
Qed.

(** What [valid] returns on a string [FULL] matches: the release numbers
    and the prerelease as written, without a leading [v] and without the
    build metadata. *)
Lemma valid_FULL (v : jsstring) (g : groups) :
  FULL v = Some g -> within_limits v g ->
  valid v = Some (render_groups g).
Proof.
  intros HF (Hlen & H1 & H2 & H3).
  destruct (FULL_inv v g HF) as (s & Hs & _).
  destruct (FULLPLAIN_tail_inv s g Hs) as (N1 & N2 & N3 & P & _ & _).
  unfold valid, parse, new_SemVer; rewrite (FULL_trim v g HF), HF.
  replace (MAX_LENGTH <? length v)%nat with false
    by (symmetry; apply Nat.ltb_ge; exact Hlen).
  pose proof (decimal_value_nonneg (m1 g)).
  pose proof (decimal_value_nonneg (m2 g)).
  pose proof (decimal_value_nonneg (m3 g)).
  assert (G : forall a, (0 <= a <= MAX_SAFE_INTEGER)%Z ->
            ((a >? MAX_SAFE_INTEGER) || (a <? 0))%Z = false).
  { intros a Ha; apply orb_false_iff; split;
      [rewrite Z.gtb_ltb|]; apply Z.ltb_ge; lia. }
  rewrite !G by lia.
  cbn [version]; f_equal; unfold format, render_groups.
  rewrite !Number_toString_decimal_value by assumption.
  destruct (m4 g) as [p|]; cbn [optb] in P.
  - pose proof (prerelease_toString p P) as E.
    pose proof (split_all_not_nil 46 p) as Hn.
    destruct (split_all 46 p); [contradiction|].
    cbn [map] in *; rewrite E; now rewrite <- !app_assoc.
  - rewrite ?app_nil_r, <- ?app_assoc; reflexivity.
Qed.

End SemverFacts.

(** ** The fast path *)

Section FastPath.

Import Semver.

Lemma numeric_identifier_head (s : jsstring) :
  NUMERICIDENTIFIER s = true ->
  exists c r, s = c :: r /\ isDigit c = true.
Proof.
  destruct s as [|c r]; simpl; [discriminate|].
  intros H; exists c, r; split; [reflexivity|].
  destruct (N.eqb_spec c 48) as [->|_]; [reflexivity|].
  now apply andb_true_iff in H.
Qed.

(** A string of the strict grammar starts with a digit: it is not blank and
    [FULL] does not read a [v] from it. *)
Lemma strict_head (v : jsstring) (g : groups) :
  FULLPLAIN_tail v = Some g ->
  exists c r, v = c :: r /\ isDigit c = true.
Proof.
  intros H; destruct (FULLPLAIN_tail_inv v g H) as (N1 & _ & _ & _ & _ & C).
  destruct (numeric_identifier_head _ N1) as (c & r & E & Hc).
  pose proof (cut_spec 43 v) as [_ Hv]; rewrite C in Hv; cbn [fst snd] in Hv.
  unfold render_groups in Hv; rewrite E in Hv; simpl in Hv.
  eexists c, _; split; [exact Hv|exact Hc].
Qed.

Lemma strict_FULL (v : jsstring) (g : groups) :
  FULLPLAIN_tail v = Some g -> FULL v = Some g /\ trim v <> [].
Proof.
  intros H; destruct (strict_head v g H) as (c & r & -> & Hc).
  split.
  - unfold FULL; rewrite <- H.
    destruct (N.eqb_spec c 118) as [->|_]; [discriminate Hc|reflexivity].
  - apply trim_not_nil, not_true_is_false; intros W; char_lia.
Qed.

Lemma strict_no_build (v : jsstring) (g : groups) :
  FULLPLAIN_tail v = Some g ->
  v = render_groups g
      ++ match m5 g with
         | Some b => str "+" ++ b
         | None => []
         end.
Proof.
  intros H; destruct (FULLPLAIN_tail_inv v g H) as (_ & _ & _ & _ & _ & C).
  pose proof (cut_spec 43 v) as [_ Hv]; rewrite C in Hv; exact Hv.
Qed.

(** The fast path on a string of the strict grammar: the release numbers
    and the prerelease as written. *)
Lemma strict_valid (v : jsstring) (g : groups) :
  FULLPLAIN_tail v = Some g ->
  within_limits v g ->
  getSemver_default v = Return (render_groups g).
Proof.
  intros H L; destruct (strict_FULL v g H) as [HF Hv].
  now rewrite (getSemver_string v Hv), (valid_FULL v g HF L).
Qed.

End FastPath.

(** C1, as stated, fails at [1.2.3-alpha+build], a string of the strict
    grammar: the library's [valid] returns the version without its build
    metadata, and that is what the fast path returns. *)
Lemma getSemver_fast_path_not_identity :
  trim (str "1.2.3-alpha+build") <> []
  /\ Semver.FULLPLAIN_tail (str "1.2.3-alpha+build") <> None
  /\ getSemver_default (str "1.2.3-alpha+build") = Return (str "1.2.3-alpha")
  /\ ~ (forall v, trim v <> [] -> Semver.FULLPLAIN_tail v <> None ->
                  getSemver_default v = Return v).
Proof.
  assert (T : trim (str "1.2.3-alpha+build") <> [])
    by (vm_compute; discriminate).
  assert (S : Semver.FULLPLAIN_tail (str "1.2.3-alpha+build") <> None)
    by (vm_compute; discriminate).
  assert (E : getSemver_default (str "1.2.3-alpha+build")
              = Return (str "1.2.3-alpha")) by (vm_compute; reflexivity).
  repeat (split; [assumption|]).
  intros H; specialize (H (str "1.2.3-alpha+build") T S).
  rewrite E in H; vm_compute in H; discriminate H.
Qed.

(** C1, amended.  For every string of the strict grammar (three release
    numbers, an optional prerelease, optional build metadata) within the
    library's limits, [getSemver] resolves to the string up to its build
    metadata: to the string itself when it has none, and to the text before
    the [+] otherwise. *)
Theorem getSemver_fast_path (v : jsstring) (g : Semver.groups) :
  Semver.FULLPLAIN_tail v = Some g ->
  within_limits v g ->
  getSemver_default v = Return (fst (cut 43 v))
  /\ (Semver.m5 g = None -> getSemver_default v = Return v)
  /\ (forall b, Semver.m5 g = Some b ->
        v = fst (cut 43 v) ++ str "+" ++ b).
Proof.
  intros H L.
  destruct (FULLPLAIN_tail_inv v g H) as (_ & _ & _ & _ & _ & C).
  pose proof (strict_no_build v g H) as E.
  rewrite (strict_valid v g H L), C; cbn [fst].
  split; [reflexivity|split].
  - intros Hb; rewrite Hb, app_nil_r in E; now rewrite <- E.
  - intros b Hb; now rewrite Hb in E.
Qed.

(** C1, amended, at [1.2.3-alpha] and at [1.2.3-alpha+build]. *)
Lemma getSemver_fast_path_witness :
  getSemver_default (str "1.2.3-alpha") = Return (str "1.2.3-alpha")
  /\ getSemver_default (str "1.2.3-alpha+build") = Return (str "1.2.3-alpha").
Proof.
  split.
  - refine (proj1 (proj2 (getSemver_fast_path (str "1.2.3-alpha")
      {| Semver.m1 := str "1"; Semver.m2 := str "2"; Semver.m3 := str "3";
         Semver.m4 := Some (str "alpha"); Semver.m5 := None |} _ _)) _).
    + vm_compute; reflexivity.
    + unfold within_limits; repeat split;
        [vm_compute; lia|vm_compute; discriminate..].
    + reflexivity.
  - refine (proj1 (getSemver_fast_path (str "1.2.3-alpha+build")
      {| Semver.m1 := str "1"; Semver.m2 := str "2"; Semver.m3 := str "3";
         Semver.m4 := Some (str "alpha"); Semver.m5 := Some (str "build") |}
      _ _)).
    + vm_compute; reflexivity.
    + unfold within_limits; repeat split;
        [vm_compute; lia|vm_compute; discriminate..].
Defined.




(** ** Applying [getSemver] to its own result *)

Section Twice.

Import Semver.

Lemma valid_inv (v r : jsstring) :
  valid v = Some r ->
  exists g, FULL v = Some g /\ within_limits v g /\ r = render_groups g.
Proof.
  intros H.
  assert (E : exists g, FULL v = Some g /\ within_limits v g).
  { revert H; unfold valid, parse, new_SemVer.
    destruct (Nat.ltb_spec MAX_LENGTH (length v)) as [|L]; [discriminate|].
    destruct (FULL v) as [g|] eqn:F; [|discriminate].
    rewrite (FULL_trim v g F), F.
    destruct ((decimal_value (m1 g) >? MAX_SAFE_INTEGER)
              || (decimal_value (m1 g) <? 0))%Z eqn:E1; [discriminate|].
    destruct ((decimal_value (m2 g) >? MAX_SAFE_INTEGER)
              || (decimal_value (m2 g) <? 0))%Z eqn:E2; [discriminate|].
    destruct ((decimal_value (m3 g) >? MAX_SAFE_INTEGER)
              || (decimal_value (m3 g) <? 0))%Z eqn:E3; [discriminate|].
    intros _; exists g; split; [reflexivity|].
    apply orb_false_iff in E1, E2, E3.
    rewrite Z.gtb_ltb, !Z.ltb_ge in E1, E2, E3.
    unfold within_limits; repeat split; solve [assumption | lia]. }
  destruct E as (g & F & W); exists g; split; [exact F|split; [exact W|]].
  rewrite (valid_FULL v g F W) in H; now injection H.
Qed.

(** What [valid] returns is again of the strict grammar, with the same
    release numbers and prerelease and without build metadata. *)
Lemma render_groups_strict (s : jsstring) (g : groups) :
  FULLPLAIN_tail s = Some g ->
  FULLPLAIN_tail (render_groups g)
  = Some {| m1 := m1 g; m2 := m2 g; m3 := m3 g; m4 := m4 g; m5 := None |}.
Proof.
  intros H; destruct (FULLPLAIN_tail_inv s g H) as (N1 & N2 & N3 & P & _ & _).
  pose proof (FULLPLAIN_tail_intro (m1 g) (m2 g) (m3 g) (m4 g) None
                N1 N2 N3 P eq_refl) as I.
  cbv zeta in I; rewrite app_nil_r in I; exact I.
Qed.

Lemma strict_no_plus (r : jsstring) (g : groups) :
  FULLPLAIN_tail r = Some g -> m5 g = None -> ~ In 43 r.
Proof.
  intros H Hb; destruct (FULLPLAIN_tail_inv r g H) as (_ & _ & _ & _ & _ & C).
  pose proof (cut_spec 43 r) as [Hn E].
  rewrite C in Hn, E; cbn [fst snd] in Hn, E.
  rewrite Hb, app_nil_r in E; now rewrite E.
Qed.

(** The fast path is stable: what it returns, it returns unchanged. *)
Lemma fast_path_stable (v r : jsstring) :
  valid v = Some r -> getSemver_default r = Return r /\ ~ In 43 r.
Proof.
  intros H; destruct (valid_inv v r H) as (g & F & (Hl & Hn) & ->).
  destruct (FULL_inv v g F) as (s & Hs & Hv).
  pose proof (render_groups_strict s g Hs) as R.
  pose proof (strict_no_build s g Hs) as E.
  split; [|now apply (strict_no_plus _ _ R)].
  refine (strict_valid _ _ R _).
  split; [|exact Hn].
  assert (length (render_groups g) <= length s)%nat
    by (rewrite E, length_app; lia).
  destruct Hv as [->| ->]; simpl in Hl; lia.
Qed.

Lemma decimal_value_Number_toString (n : Z) :
  (0 <= n)%Z -> decimal_value (Number_toString n) = n.
Proof.
  intros H; rewrite <- (Z2N.id n H) at 1; rewrite Number_toString_of_N.
  unfold decimal_value.
  rewrite uint_of_digits_of_uint, DecimalN.Unsigned.of_to.
  now apply Z2N.id.
Qed.

(** Three release numbers and the three groups of parts behind them. *)
Lemma strict_of_parts (a b c : Z) (overflow pre bm : VersionSection) :
  (0 <= a)%Z -> (0 <= b)%Z -> (0 <= c)%Z ->
  Forall good_part overflow -> Forall good_part pre -> Forall good_part bm ->
  FULLPLAIN_tail
    (Number_toString a ++ str "." ++ Number_toString b ++ str "."
     ++ Number_toString c ++ suffix (str "-") overflow
     ++ suffix (str "-") pre ++ suffix (str "+") bm)
  = Some {| m1 := Number_toString a; m2 := Number_toString b;
            m3 := Number_toString c; m4 := merge_pre overflow pre;
            m5 := match bm with
                  | [] => None
                  | _ => Some (join_array (str ".") bm)
                  end |}.
Proof.
  intros Ha Hb Hc GO GP GB.
  pose proof (FULLPLAIN_tail_intro
    (Number_toString a) (Number_toString b) (Number_toString c)
    (merge_pre overflow pre)
    (match bm with [] => None | _ => Some (join_array (str ".") bm) end)
    (Number_toString_numeric_identifier a Ha)
    (Number_toString_numeric_identifier b Hb)
    (Number_toString_numeric_identifier c Hc)
    (merge_pre_PRERELEASE overflow pre GO GP)) as I.
  cbv zeta in I; rewrite <- I.
  - f_equal; unfold render_groups; cbn [m1 m2 m3 m4].
    rewrite <- merge_pre_suffix, <- !app_assoc.
    do 6 f_equal; now destruct bm.
  - destruct bm; [reflexivity|]; cbn [optb]; now apply join_BUILD.
Qed.

(** The assembled version of good parts with a release that is not empty:
    three release numbers, those of the release or zero, and the three
    groups of parts behind them. *)
Lemma assemble_form (sections : Version) :
  Forall good_part (Release sections) ->
  Forall safe_part (Release sections) ->
  Release sections <> [] ->
  exists a b c overflow,
    (0 <= a <= MAX_SAFE_INTEGER)%Z /\ (0 <= b <= MAX_SAFE_INTEGER)%Z
    /\ (0 <= c <= MAX_SAFE_INTEGER)%Z /\ Forall good_part overflow
    /\ assemble sections
       = Number_toString a ++ str "." ++ Number_toString b ++ str "."
         ++ Number_toString c ++ suffix (str "-") overflow
         ++ suffix (str "-") (Prerelease sections)
         ++ suffix (str "+") (BuildMetadata sections).
Proof.
  intros GR SR Hn.
  assert (M0 : (0 <= 0 <= MAX_SAFE_INTEGER)%Z)
    by (unfold MAX_SAFE_INTEGER; lia).
  destruct (forallb is_Num (firstn 3 (Release sections))) eqn:F.
  - rewrite (assemble_numeric sections F Hn).
    destruct (Release sections) as [|[a|] [|[b|] [|[c|] l]]];
      try discriminate F; [contradiction|..];
      repeat match goal with
      | H : Forall _ (_ :: _) |- _ => inversion_clear H
      end;
      cbn [good_part safe_part] in *;
      [exists a, 0%Z, 0%Z, []|exists a, b, 0%Z, []|exists a, b, c, l];
      (repeat (split; [solve [lia | assumption | constructor]|]));
      cbn [firstn skipn length Nat.sub repeat concat join_array map join
           strnum_toString];
      change (str ".0") with (str "." ++ Number_toString 0);
      rewrite ?app_nil_r, <- ?app_assoc; reflexivity.
  - rewrite (assemble_non_numeric sections F).
    exists 0%Z, 0%Z, 0%Z, (Release sections).
    repeat (split; [solve [lia | assumption]|]); reflexivity.
Qed.

Lemma assemble_strict (sections : Version) :
  Forall good_part (Release sections) ->
  Forall good_part (Prerelease sections) ->
  Forall good_part (BuildMetadata sections) ->
  Forall safe_part (Release sections) ->
  Release sections <> [] ->
  exists g,
    FULLPLAIN_tail (assemble sections) = Some g
    /\ (decimal_value (m1 g) <= MAX_SAFE_INTEGER)%Z
    /\ (decimal_value (m2 g) <= MAX_SAFE_INTEGER)%Z
    /\ (decimal_value (m3 g) <= MAX_SAFE_INTEGER)%Z.
Proof.
  intros GR GP GB SR Hn.
  destruct (assemble_form sections GR SR Hn)
    as (a & b & c & overflow & Ha & Hb & Hc & GO & ->).
  eexists; split;
    [apply strict_of_parts; solve [lia | assumption]|].
  cbn [m1 m2 m3]; rewrite !decimal_value_Number_toString by lia; lia.
Qed.

End Twice.

(** C8, as stated, fails at [1.2-a+b]: the build metadata the parser keeps
    is dropped by the library when [getSemver] is applied to its own
    result. *)
Lemma getSemver_not_idempotent :
  getSemver_default (str "1.2-a+b") = Return (str "1.2.0-a+b")
  /\ getSemver_default (str "1.2.0-a+b") = Return (str "1.2.0-a")
  /\ ~ (forall v r, getSemver_default v = Return r ->
                    getSemver_default r = Return r).
Proof.
  assert (E1 : getSemver_default (str "1.2-a+b") = Return (str "1.2.0-a+b"))
    by (vm_compute; reflexivity).
  assert (E2 : getSemver_default (str "1.2.0-a+b") = Return (str "1.2.0-a"))
    by (vm_compute; reflexivity).
  repeat (split; [assumption|]).
  intros H; specialize (H _ _ E1).
  rewrite E2 in H; vm_compute in H; discriminate H.
Qed.

(** C8, amended.  Let [getSemver] resolve to [r] on [v], with [r] of at
    most [MAX_LENGTH] code units and, when [v] went through the parser, with
    a release that is not empty and numbers up to [MAX_SAFE_INTEGER].  Then
    [getSemver] resolves on [r] to [r] up to its build metadata, resolves on
    that to the same again, and so resolves on [r] to [r] itself when [r]
    has no build metadata. *)
Theorem getSemver_twice (v r : jsstring) :
  getSemver_default v = Return r ->
  (length r <= Semver.MAX_LENGTH)%nat ->
  (Semver.valid v = None ->
   Release (parsed v) <> [] /\ safe_version (parsed v)) ->
  getSemver_default r = Return (fst (cut 43 r))
  /\ getSemver_default (fst (cut 43 r)) = Return (fst (cut 43 r))
  /\ (~ In 43 r -> getSemver_default r = Return r).
Proof.
  intros H Hlen Hslow.
  assert (Hv : trim v <> []).
  { intros E; apply eqb_nil_true in E.
    unfold getSemver_default, getSemver in H; rewrite E in H; discriminate. }
  rewrite (getSemver_string v Hv) in H; injection H as H.
  assert (K : ~ In 43 r -> fst (cut 43 r) = r)
    by (intros N; now rewrite cut_none).
  destruct (Semver.valid v) as [r0|] eqn:V.
  - subst r0; destruct (fast_path_stable v r V) as [S N].
    rewrite (K N); auto.
  - destruct (Hslow eq_refl) as [Hn Hs].
    destruct (parsed_good v) as (GR & GP & GB).
    apply Forall_app in Hs; destruct Hs as [SR _].
    destruct (assemble_strict (parsed v) GR GP GB SR Hn)
      as (g & Hg & B1 & B2 & B3).
    rewrite H in Hg.
    assert (W : within_limits r g) by (repeat split; assumption).
    pose proof (strict_valid r g Hg W) as R.
    destruct (strict_FULL r g Hg) as [F Hr].
    pose proof (valid_FULL r g F W) as Vr.
    destruct (FULLPLAIN_tail_inv r g Hg) as (_ & _ & _ & _ & _ & C).
    rewrite C in *; cbn [fst] in *.
    destruct (fast_path_stable r _ Vr) as [S _].
    split; [exact R|split; [exact S|]].
    intros N; rewrite R; f_equal; now apply K.
Qed.

(** C8, amended, at [1.2-a+b], whose result keeps the build metadata, and
    at [1.2.3.4-alpha], whose result has none. *)
Lemma getSemver_twice_witness :
  getSemver_default (str "1.2.0-a+b") = Return (str "1.2.0-a")
  /\ getSemver_default (str "1.2.0-a") = Return (str "1.2.0-a")
  /\ getSemver_default (str "1.2.3-4-alpha") = Return (str "1.2.3-4-alpha").
Proof.
  split; [|split].
  - refine (proj1 (getSemver_twice (str "1.2-a+b") (str "1.2.0-a+b") _ _ _)).
    + vm_compute; reflexivity.
    + vm_compute; lia.
    + intros _; split; [vm_compute; discriminate|].
      safe_version_by_computation.
  - refine (proj1 (proj2
      (getSemver_twice (str "1.2-a+b") (str "1.2.0-a+b") _ _ _))).
    + vm_compute; reflexivity.
    + vm_compute; lia.
    + intros _; split; [vm_compute; discriminate|].
      safe_version_by_computation.
  - refine (proj2 (proj2
      (getSemver_twice (str "1.2.3.4-alpha") (str "1.2.3-4-alpha") _ _ _)) _).
    + vm_compute; reflexivity.
    + vm_compute; lia.
    + intros _; split; [vm_compute; discriminate|].
      safe_version_by_computation.
    + vm_compute; intuition discriminate.
Defined.

(** * Further properties of the code *)

(** ** The tokenizer *)

(** X1.  [ParseSection] resolves for every string, and every part of the
    array is a number that is not negative or a string that is not empty,
    consists of digits, letters and hyphens, and is not all digits. *)
Theorem ParseSection_parts (section : jsstring) :
  exists parts,
    ParseSection (JSString section) = Return parts
    /\ Forall good_part parts.
Proof.
  exists (tokenize section); split;
    [apply ParseSection_string|apply tokenize_good].
Qed.

Section Counting.

Lemma length_split_all (sep : codeunit) (s : jsstring) :
  length (split_all sep s) = S (count_occ N.eq_dec s sep).
Proof.
  induction s as [|c r IH]; [reflexivity|].
  cbn [split_all count_occ].
  pose proof (split_all_not_nil sep r) as Hn.
  destruct (N.eqb_spec c sep) as [->|Hc].
  - destruct (N.eq_dec sep sep); [|contradiction]; simpl; now rewrite IH.
  - destruct (N.eq_dec c sep); [contradiction|].
    destruct (split_all sep r); [contradiction|]; exact IH.
Qed.

Lemma split_all_snoc_sep (sep : codeunit) (x : jsstring) :
  split_all sep (x ++ [sep]) = split_all sep x ++ [[]].
Proof.
  induction x as [|d x IH]; simpl.
  - now rewrite N.eqb_refl.
  - rewrite IH; pose proof (split_all_not_nil sep x) as Hn.
    destruct (d =? sep); [reflexivity|].
    destruct (split_all sep x); [contradiction|reflexivity].
Qed.

(** The last piece of a split is empty exactly when the string is empty or
    ends in the separator. *)
Lemma last_split_all (sep : codeunit) (s : jsstring) :
  last (split_all sep s) [] = []
  <-> match rev s with
      | [] => True
      | c :: _ => c = sep
      end.
Proof.
  destruct s as [|c r _] using rev_ind; [simpl; tauto|].
  rewrite rev_app_distr; cbn [rev app].
  destruct (N.eq_dec c sep) as [->|Hc].
  - rewrite split_all_snoc_sep, last_last; tauto.
  - destruct (exists_last (split_all_not_nil sep r)) as (xs & x & E).
    rewrite (split_all_glue sep c r [] xs [] x []) by (assumption || reflexivity).
    change (xs ++ [x ++ [c]]) with (xs ++ [x ++ [c]]).
    rewrite last_last; split; [|contradiction].
    intros F; now destruct x.
Qed.

Lemma length_flat_map_emit_inner (ts : list jsstring) :
  length (flat_map emit_inner ts) = length ts.
Proof.
  induction ts as [|t ts IH]; [reflexivity|].
  cbn [flat_map]; rewrite length_app, IH; now destruct t.
Qed.

Lemma count_occ_sanitized (s : jsstring) :
  count_occ N.eq_dec (replace_class invalid_char 46 s) 46
  = length (filter separator_char s).
Proof.
  induction s as [|c r IH]; [reflexivity|].
  cbn [replace_class map filter count_occ]; fold (replace_class invalid_char 46 r).
  unfold separator_char at 1.
  destruct (invalid_char c) eqn:E; cbn [orb].
  - destruct (N.eq_dec 46 46); [|contradiction]; simpl; now rewrite IH.
  - destruct (N.eqb_spec c 46) as [->|Hc];
      [destruct (N.eq_dec 46 46); [|contradiction]; simpl; now rewrite IH|].
    destruct (N.eq_dec c 46); [contradiction|exact IH].
Qed.

Lemma rev_sanitized (s : jsstring) :
  rev (replace_class invalid_char 46 s)
  = replace_class invalid_char 46 (rev s).
Proof. unfold replace_class; now rewrite map_rev. Qed.

End Counting.

(** X2.  [ParseSection] pushes one part for every separator of the section
    string, a dot or a code unit the sanitizer replaces, and one more when
    the string ends in a token that is not empty; so it resolves to the empty
    array for the empty string only. *)
Theorem ParseSection_length (section : jsstring) :
  exists parts,
    ParseSection (JSString section) = Return parts
    /\ length parts
       = (length (filter separator_char section)
          + if open_ended section then 1 else 0)%nat
    /\ (parts = [] <-> section = []).
Proof.
  exists (tokenize section); split; [apply ParseSection_string|].
  assert (L : length (tokenize section)
              = (length (filter separator_char section)
                 + if open_ended section then 1 else 0)%nat).
  { rewrite tokenize_tokens; cbv zeta.
    set (x := replace_class invalid_char 46 section).
    pose proof (length_split_all 46 x) as Hl.
    pose proof (last_split_all 46 x) as Hlast.
    destruct (exists_last (split_all_not_nil 46 x)) as (a & z & E).
    rewrite E in *; rewrite removelast_last, last_last in *.
    rewrite length_app, length_flat_map_emit_inner.
    rewrite length_app in Hl; simpl in Hl.
    unfold x in Hl; rewrite count_occ_sanitized in Hl.
    replace (length a) with (length (filter separator_char section)) by lia.
    f_equal; unfold open_ended.
    unfold x in Hlast; rewrite rev_sanitized in Hlast.
    destruct (rev section) as [|c r]; simpl in Hlast.
    - now rewrite (proj2 Hlast I).
    - unfold separator_char; destruct (invalid_char c) eqn:Ic; simpl.
      + now rewrite (proj2 Hlast eq_refl).
      + destruct (N.eqb_spec c 46) as [Hc|Hc]; simpl.
        * now rewrite (proj2 Hlast Hc).
        * destruct z; [now destruct Hc; apply Hlast|reflexivity]. }
  split; [exact L|].
  split.
  - intros E; rewrite E in L; simpl in L.
    destruct section as [|c r]; [reflexivity|exfalso].
    unfold open_ended in L.
    assert (H : filter separator_char (c :: r) = []
                /\ (if match rev (c :: r) with
                       | [] => false
                       | d :: _ => negb (separator_char d)
                       end then 1 else 0)%nat = 0%nat).
    { split; [apply length_zero_iff_nil|]; lia. }
    destruct H as [Hf Ho].
    destruct (rev (c :: r)) as [|d t] eqn:R.
    + apply (f_equal (@rev _)) in R; rewrite rev_involutive in R;
        discriminate R.
    + assert (Hd : In d (c :: r)) by (apply in_rev; rewrite R; now left).
      destruct (separator_char d) eqn:Sd; [|discriminate Ho].
      assert (In d (filter separator_char (c :: r)))
        by (apply filter_In; auto).
      rewrite Hf in H; destruct H.
  - intros ->; reflexivity.
Qed.

(** ** The parser *)

(** X3.  Without a hyphen there is no prerelease and no build metadata,
    whatever else the string holds: the release is the tokenized string, and
    a plus sign in it is a separator like any other invalid character. *)
Theorem ParseVersion_without_hyphen (v : jsstring) :
  ~ In 45 v ->
  exists parts,
    ParseSection (JSString v) = Return parts
    /\ ParseVersion (JSString v)
       = Return {| Release := parts; Prerelease := [];
                   BuildMetadata := [] |}.
Proof.
  intros H; exists (tokenize v); split; [apply ParseSection_string|].
  rewrite ParseVersion_string; unfold parsed.
  now rewrite (split_all_no_sep 45 v H).
Qed.

(** X3 at [1.2+build]. *)
Lemma ParseVersion_without_hyphen_witness :
  exists parts,
    ParseSection (JSString (str "1.2+build")) = Return parts
    /\ ParseVersion (JSString (str "1.2+build"))
       = Return {| Release := parts; Prerelease := [];
                   BuildMetadata := [] |}.
Proof.
  apply (ParseVersion_without_hyphen (str "1.2+build")).
  vm_compute; intuition discriminate.
Defined.

(** X4.  A release, a prerelease behind the one hyphen and build metadata
    behind the one plus sign that follows it are each tokenized on their
    own; a plus sign in the release is no delimiter. *)
Theorem ParseVersion_sections (a b c : jsstring) :
  ~ In 45 a -> ~ In 45 b -> ~ In 43 b -> ~ In 45 c -> ~ In 43 c ->
  exists release prerelease build,
    ParseSection (JSString a) = Return release
    /\ ParseSection (JSString b) = Return prerelease
    /\ ParseSection (JSString c) = Return build
    /\ ParseVersion (JSString (a ++ str "-" ++ b ++ str "+" ++ c))
       = Return {| Release := release; Prerelease := prerelease;
                   BuildMetadata := build |}
    /\ ParseVersion (JSString (a ++ str "-" ++ b))
       = Return {| Release := release; Prerelease := prerelease;
                   BuildMetadata := [] |}.
Proof.
  intros Ha Hb Hb' Hc Hc'.
  exists (tokenize a), (tokenize b), (tokenize c).
  repeat (split; [apply ParseSection_string|]).
  rewrite !ParseVersion_string; unfold parsed.
  change (a ++ str "-" ++ b ++ str "+" ++ c) with (a ++ 45 :: b ++ 43 :: c).
  change (a ++ str "-" ++ b) with (a ++ 45 :: b).
  rewrite !(split_all_app 45 a) by assumption.
  assert (Hr : ~ In 45 (b ++ 43 :: c)).
  { intros H; apply in_app_or in H; destruct H as [H|[H|H]];
      [now apply Hb|discriminate H|now apply Hc]. }
  rewrite (split_all_no_sep 45 _ Hr), (split_all_no_sep 45 _ Hb).
  cbn [hd].
  rewrite (split_all_app 43 b c Hb'), (split_all_no_sep 43 c Hc').
  now rewrite (split_all_no_sep 43 b Hb').
Qed.

(** X4 at [1.2-rc.1+b7] and [1.2-rc.1]. *)
Lemma ParseVersion_sections_witness :
  ParseVersion (JSString (str "1.2-rc.1+b7"))
  = Return {| Release := [Num 1; Num 2];
              Prerelease := [Str (str "rc"); Num 1];
              BuildMetadata := [Str (str "b7")] |}
  /\ ParseVersion (JSString (str "1.2-rc.1"))
     = Return {| Release := [Num 1; Num 2];
                 Prerelease := [Str (str "rc"); Num 1];
                 BuildMetadata := [] |}.
Proof.
  assert (NI : forall c s, forallb (fun d => negb (d =? c)) s = true ->
                           ~ In c s).
  { intros c s H Hin; rewrite forallb_forall in H.
    specialize (H c Hin); now rewrite N.eqb_refl in H. }
  destruct (ParseVersion_sections (str "1.2") (str "rc.1") (str "b7")
              (NI 45 (str "1.2") eq_refl) (NI 45 (str "rc.1") eq_refl)
              (NI 43 (str "rc.1") eq_refl) (NI 45 (str "b7") eq_refl)
              (NI 43 (str "b7") eq_refl))
    as (r & p & b & Er & Ep & Eb & E1 & E2).
  injection Er as <-; injection Ep as <-; injection Eb as <-.
  split; [exact E1|exact E2].
Defined.

(** ** The packager's test of the plugin's result *)

Section LatestNPM.

Import Semver.

(** What [valid] returns, it accepts and returns unchanged. *)
Lemma valid_stable (v r : jsstring) : valid v = Some r -> valid r = Some r.
Proof.
  intros H; destruct (valid_inv v r H) as (g & F & (Hl & Hn) & ->).
  destruct (FULL_inv v g F) as (s & Hs & Hv).
  pose proof (render_groups_strict s g Hs) as R.
  pose proof (strict_no_build s g Hs) as E.
  destruct (strict_FULL _ _ R) as [FR _].
  refine (valid_FULL _ _ FR _).
  split; [|exact Hn].
  assert (length (render_groups g) <= length s)%nat
    by (rewrite E, length_app; lia).
  destruct Hv as [->| ->]; simpl in Hl; lia.
Qed.

(** The assembled version of a string that starts with a hyphen. *)
Lemma leading_hyphen (w : jsstring) :
  valid (45 :: w) = None
  /\ Release (parsed (45 :: w)) = []
  /\ exists t, assemble (parsed (45 :: w)) = str ".0.0" ++ t.
Proof.
  split; [|split].
  - unfold valid, parse, FULL; cbn [N.eqb Pos.eqb].
    replace (FULLPLAIN_tail (45 :: w)) with (@None groups);
      [now destruct (_ <? _)%nat|].
    unfold FULLPLAIN_tail; cbn [cut N.eqb Pos.eqb].
    destruct (cut 43 w) as [a b]; reflexivity.
  - unfold parsed; cbn [split_all N.eqb Pos.eqb Release hd]; reflexivity.
  - assert (E : Release (parsed (45 :: w)) = [])
      by (unfold parsed; cbn [split_all N.eqb Pos.eqb Release hd];
          reflexivity).
    destruct (parsed (45 :: w)) as [rel pre bm]; cbn [Release] in E.
    subst rel; destruct pre, bm; eexists; reflexivity.
Qed.

(** No string that starts with a dot is accepted. *)
Lemma leading_dot_invalid (t : jsstring) : valid (46 :: t) = None.
Proof.
  unfold valid, parse, FULL; cbn [N.eqb Pos.eqb].
  replace (FULLPLAIN_tail (46 :: t)) with (@None groups);
    [now destruct (_ <? _)%nat|].
  unfold FULLPLAIN_tail; cbn [cut N.eqb Pos.eqb].
  destruct (cut 43 t) as [a b]; cbn [cut N.eqb Pos.eqb].
  destruct (cut 45 a) as [m p]; cbn [split_all N.eqb Pos.eqb].
  destruct (split_all 46 m) as [|x [|y [|z l]]]; reflexivity.
Qed.

End LatestNPM.

(** X5.  What the default plugin makes of the name of a release passes the
    test [UpdatePackage] applies to it, when it has at most [MAX_LENGTH]
    code units and, for a name that went through the parser, the release is
    not empty and the numbers are at most [MAX_SAFE_INTEGER]. *)
Theorem latestNPM_accepts (pluginName v r : jsstring) :
  getSemver_default v = Return r ->
  (length r <= Semver.MAX_LENGTH)%nat ->
  (Semver.valid v = None ->
   Release (parsed v) <> [] /\ safe_version (parsed v)) ->
  Semver.valid r <> None
  /\ latestNPM pluginName (JSString v) = Return r.
Proof.
  intros H Hlen Hslow.
  assert (V : exists r', Semver.valid r = Some r').
  { assert (Hv : trim v <> []).
    { intros E; apply eqb_nil_true in E.
      unfold getSemver_default, getSemver in H; rewrite E in H;
        discriminate. }
    rewrite (getSemver_string v Hv) in H; injection H as H.
    destruct (Semver.valid v) as [r0|] eqn:Vv.
    - subst r0; exists r; now apply (valid_stable v).
    - destruct (Hslow eq_refl) as [Hn Hs].
      destruct (parsed_good v) as (GR & GP & GB).
      apply Forall_app in Hs; destruct Hs as [SR _].
      destruct (assemble_strict (parsed v) GR GP GB SR Hn)
        as (g & Hg & B1 & B2 & B3).
      rewrite H in Hg.
      destruct (strict_FULL r g Hg) as [F _].
      eexists; apply (valid_FULL r g F); repeat split; assumption. }
  destruct V as [r' V]; split; [now rewrite V|].
  unfold latestNPM; fold (getSemver_default v); rewrite H; cbn [await].
  now rewrite V.
Qed.

(** X5 at [1.2.3.4-alpha]. *)
Lemma latestNPM_accepts_witness :
  latestNPM (str "grp-plugin-default.js") (JSString (str "1.2.3.4-alpha"))
  = Return (str "1.2.3-4-alpha").
Proof.
  refine (proj2 (latestNPM_accepts _ (str "1.2.3.4-alpha")
                   (str "1.2.3-4-alpha") _ _ _)).
  - vm_compute; reflexivity.
  - vm_compute; lia.
  - intros _; split; [vm_compute; discriminate|].
    safe_version_by_computation.
Defined.

(** X6.  On every string that starts with a hyphen the default plugin
    resolves to a string that starts with [.0.0], which the library does not
    accept: [UpdatePackage] is rejected with the error that the plugin
    returned an invalid version expression. *)
Theorem latestNPM_rejects_leading_hyphen (pluginName w : jsstring) :
  exists t,
    getSemver_default (str "-" ++ w) = Return (str ".0.0" ++ t)
    /\ Semver.valid (str ".0.0" ++ t) = None
    /\ latestNPM pluginName (JSString (str "-" ++ w))
       = Throw (Error (str "The plugin '" ++ pluginName
                       ++ str "' returned an invalid version expression '"
                       ++ str ".0.0" ++ t ++ str "'.")).
Proof.
  change (str "-" ++ w) with (45 :: w).
  destruct (leading_hyphen w) as (V & _ & t & E).
  exists t.
  assert (G : getSemver_default (45 :: w) = Return (str ".0.0" ++ t)).
  { rewrite getSemver_string by (apply trim_not_nil; reflexivity).
    now rewrite V, E. }
  assert (I : Semver.valid (str ".0.0" ++ t) = None)
    by apply leading_dot_invalid.
  split; [exact G|split; [exact I|]].
  unfold latestNPM; fold (getSemver_default (45 :: w)); rewrite G.
  cbn [await]; rewrite I.
  now rewrite <- !app_assoc.
Qed.

(** ** Runs of digits *)

Section DigitRuns.

Import Semver.

Variable runs : list jsstring.
Hypothesis runs_not_nil : runs <> [].
Hypothesis runs_digits :
  forall r, In r runs -> r <> [] /\ forallb isDigit r = true.

Lemma runs_chars (c : codeunit) :
  In c (join [46] runs) -> isDigit c = true \/ c = 46.
Proof.
  intros H; destruct (in_join _ _ _ H) as [E|(t & Ht & Hc)]; [now right|].
  left; destruct (runs_digits t Ht) as [_ D].
  rewrite forallb_forall in D; now apply D.
Qed.

Lemma runs_no (c : codeunit) :
  isDigit c = false -> c <> 46 -> ~ In c (join [46] runs).
Proof.
  intros D N H; destruct (runs_chars c H) as [E|E]; congruence.
Qed.

Lemma runs_no_dot (t : jsstring) : In t runs -> ~ In 46 t.
Proof.
  intros Ht; destruct (runs_digits t Ht) as [_ D].
  now apply digits_not_in.
Qed.

Lemma runs_sanitized :
  replace_class invalid_char 46 (join [46] runs) = join [46] runs.
Proof.
  unfold replace_class; rewrite <- (map_id (join [46] runs)) at 2.
  apply map_ext_in; intros c Hc.
  replace (invalid_char c) with false; [reflexivity|].
  symmetry; destruct (runs_chars c Hc) as [D| ->]; [|reflexivity].
  unfold invalid_char; now rewrite D.
Qed.

Lemma part_of_run (t : jsstring) :
  In t runs -> part_of_token t = Num (decimal_value t).
Proof.
  intros Ht; destruct (runs_digits t Ht) as [Hn D].
  unfold part_of_token; rewrite (parseInt_digits t Hn D).
  pose proof (decimal_value_nonneg t).
  destruct (Z.geb_spec (decimal_value t) 0); [reflexivity|lia].
Qed.

(** Tokenizing runs of digits with dots between them gives their
    numbers. *)
Lemma tokenize_runs : tokenize (join [46] runs) = run_numbers runs.
Proof.
  rewrite tokenize_tokens; cbv zeta.
  rewrite runs_sanitized.
  rewrite (split_all_join 46 runs runs_not_nil runs_no_dot).
  destruct (exists_last runs_not_nil) as (a & z & E).
  assert (P : forall ts, (forall t, In t ts -> In t runs) ->
            flat_map emit_inner ts = run_numbers ts).
  { induction ts as [|t ts IH]; intros H; [reflexivity|].
    cbn [flat_map run_numbers map]; fold (run_numbers ts).
    rewrite IH by (intros x Hx; apply H; now right).
    destruct (runs_digits t (H t (or_introl eq_refl))) as [Hn _].
    rewrite <- (part_of_run t) by (apply H; now left).
    now destruct t. }
  rewrite E, removelast_last, last_last.
  rewrite P by (intros t Ht; rewrite E; apply in_or_app; now left).
  assert (Hz : In z runs) by (rewrite E; apply in_or_app; right; now left).
  destruct (runs_digits z Hz) as [Hn _].
  unfold run_numbers; rewrite map_app; cbn [map].
  rewrite <- (part_of_run z Hz); now destruct z.
Qed.

Lemma runs_parsed :
  parsed (join [46] runs)
  = {| Release := run_numbers runs; Prerelease := [];
       BuildMetadata := [] |}.
Proof.
  unfold parsed.
  rewrite (split_all_no_sep 45 _ (runs_no 45 eq_refl ltac:(discriminate))).
  cbn [hd]; now rewrite tokenize_runs.
Qed.

Lemma runs_head :
  exists c t, join [46] runs = c :: t /\ isDigit c = true.
Proof.
  destruct runs as [|r rest]; [contradiction|].
  destruct (runs_digits r (or_introl eq_refl)) as [Hn D].
  destruct r as [|c r]; [contradiction|].
  rewrite join_cons_head; exists c; eexists; split; [reflexivity|].
  simpl in D; now apply andb_true_iff in D.
Qed.

Lemma run_numbers_Num (n : nat) :
  forallb is_Num (firstn n (run_numbers runs)) = true.
Proof.
  apply forallb_forall; intros x Hx.
  assert (Hin : In x (run_numbers runs)).
  { rewrite <- (firstn_skipn n (run_numbers runs)); apply in_or_app;
      now left. }
  apply in_map_iff in Hin; destruct Hin as (r & <- & _); reflexivity.
Qed.

(** What [getSemver] makes of the runs joined with dots. *)
Lemma getSemver_runs :
  getSemver_default (join [46] runs)
  = Return (join_array (str ".") (firstn 3 (run_numbers runs))
            ++ concat (repeat (str ".0") (3 - length runs))
            ++ suffix (str "-") (skipn 3 (run_numbers runs))).
Proof.
  destruct runs_head as (c & t & Ev & Dc).
  assert (Hv : trim (join [46] runs) <> []).
  { rewrite Ev; apply trim_not_nil, not_true_is_false; intros W; char_lia. }
  rewrite (getSemver_string _ Hv).
  destruct (valid (join [46] runs)) as [r|] eqn:V.
  - destruct (valid_inv _ _ V) as (g & F & _ & ->).
    assert (Fs : FULLPLAIN_tail (join [46] runs) = Some g).
    { revert F; unfold FULL; rewrite Ev.
      destruct (N.eqb_spec c 118) as [->|_]; [discriminate Dc|auto]. }
    destruct (FULLPLAIN_tail_inv _ _ Fs) as (N1 & N2 & N3 & _ & _ & C).
    rewrite (cut_none 43 _ (runs_no 43 eq_refl ltac:(discriminate))) in C.
    injection C as C _.
    assert (P : m4 g = None).
    { destruct (m4 g) as [p|] eqn:P; [exfalso|reflexivity].
      apply (runs_no 45 eq_refl ltac:(discriminate)).
      rewrite C; unfold render_groups; rewrite P.
      do 5 (apply in_or_app; right); simpl; now left. }
    assert (R : runs = [m1 g; m2 g; m3 g]).
    { rewrite <- (split_all_join 46 runs runs_not_nil runs_no_dot), C.
      unfold render_groups; rewrite P, app_nil_r.
      destruct (numeric_identifier_normal _ N1) as [D1 _].
      destruct (numeric_identifier_normal _ N2) as [D2 _].
      destruct (numeric_identifier_normal _ N3) as [D3 _].
      change (str ".") with [46]; cbn [app].
      rewrite split_all_app by (now apply digits_not_in).
      rewrite split_all_app by (now apply digits_not_in).
      rewrite split_all_no_sep by (now apply digits_not_in).
      reflexivity. }
    f_equal; rewrite R; cbn [run_numbers map firstn skipn length Nat.sub
                             repeat concat suffix join_array join
                             strnum_toString].
    rewrite !Number_toString_decimal_value by assumption.
    unfold render_groups; rewrite P, !app_nil_r.
    rewrite <- ?app_assoc; reflexivity.
  - rewrite runs_parsed; f_equal.
    rewrite assemble_numeric; cbn [Release Prerelease BuildMetadata suffix].
    + unfold run_numbers at 2; rewrite length_map.
      now rewrite !app_nil_r.
    + apply run_numbers_Num.
    + destruct runs; [contradiction|discriminate].
Qed.

End DigitRuns.

(** X7.  On one or more runs of digits with dots between them, each run
    not empty and of a value up to [MAX_SAFE_INTEGER], [getSemver] resolves
    to the first three numbers in decimal notation without leading zeros,
    [.0] for each one that is missing, and the other numbers behind a
    hyphen. *)
Theorem getSemver_digit_runs (runs : list jsstring) :
  runs <> [] ->
  (forall r, In r runs ->
     r <> [] /\ forallb isDigit r = true
     /\ (decimal_value r <= Semver.MAX_SAFE_INTEGER)%Z) ->
  getSemver_default (join (str ".") runs)
  = Return (join_array (str ".") (firstn 3 (run_numbers runs))
            ++ concat (repeat (str ".0") (3 - length runs))
            ++ suffix (str "-") (skipn 3 (run_numbers runs))).
Proof.
  intros Hn H; apply getSemver_runs; [exact Hn|].
  intros r Hr; destruct (H r Hr) as (A & B & _); now split.
Qed.

(** X7 at [01.002], [1.02.003] and [1.2.3.04.5]. *)
Lemma getSemver_digit_runs_witness :
  getSemver_default (str "01.002") = Return (str "1.2.0")
  /\ getSemver_default (str "1.02.003") = Return (str "1.2.3")
  /\ getSemver_default (str "1.2.3.04.5") = Return (str "1.2.3-4.5").
Proof.
  assert (D : forall runs,
            forallb (fun r => negb (JS.eqb r []) && forallb isDigit r
                              && (decimal_value r
                                  <=? Semver.MAX_SAFE_INTEGER)%Z) runs = true ->
            forall r, In r runs ->
              r <> [] /\ forallb isDigit r = true
              /\ (decimal_value r <= Semver.MAX_SAFE_INTEGER)%Z).
  { intros runs H r Hr; rewrite forallb_forall in H; specialize (H r Hr).
    apply andb_true_iff in H; destruct H as [H L].
    apply andb_true_iff in H; destruct H as [E G].
    apply negb_true_iff, eqb_nil_false in E; apply Z.leb_le in L; auto. }
  split; [|split].
  - apply (getSemver_digit_runs [str "01"; str "002"]);
      [discriminate|apply D; vm_compute; reflexivity].
  - apply (getSemver_digit_runs [str "1"; str "02"; str "003"]);
      [discriminate|apply D; vm_compute; reflexivity].
  - apply (getSemver_digit_runs
             [str "1"; str "2"; str "3"; str "04"; str "5"]);
      [discriminate|apply D; vm_compute; reflexivity].
Defined.

(** ** The repository of a package *)

Section Repository.

Lemma toLowerCase_in (c : codeunit) (s : jsstring) :
  In c s -> isUpper c = false -> In c (toLowerCase s).
Proof.
  intros H U; unfold toLowerCase; apply in_map_iff.
  exists c; now rewrite U.
Qed.

Lemma nth_firstn_in {A : Type} (i n : nat) (l : list A) (d : A) :
  (i < length (firstn n l))%nat -> In (nth i (firstn n l) d) l.
Proof.
  intros H.
  rewrite <- (firstn_skipn n l) at 2; apply in_or_app; left.
  now apply nth_In.
Qed.

(** What [getRepository] returns comes from the two splits. *)
Lemma getRepository_inv (packageJson : json) (repo : GitHubRepository) :
  getRepository packageJson = Return repo ->
  exists repository,
    (2 <= length (split 58 (Some 2%nat) repository))%nat
    /\ toLowerCase (nth 0 (split 58 (Some 2%nat) repository) [])
       = str "github"
    /\ (2 <= length (split 47 (Some 2%nat)
                       (nth 1 (split 58 (Some 2%nat) repository) [])))%nat
    /\ repo
       = {| owner := nth 0 (split 47 (Some 2%nat)
                              (nth 1 (split 58 (Some 2%nat) repository) []))
                       [];
            name := nth 1 (split 47 (Some 2%nat)
                             (nth 1 (split 58 (Some 2%nat) repository) []))
                      [] |}.
Proof.
  unfold getRepository.
  destruct (get packageJson (str "grp")) as [grp|]; [|discriminate].
  cbn [await]; destruct grp as [[| | | | |g]|]; cbn [typeof_json get await];
    try discriminate.
  destruct (assoc (str "repository") g) as [[| | |repository| |]|];
    try discriminate.
  intros H; exists repository.
  destruct (Nat.ltb_spec (length (split 58 (Some 2%nat) repository)) 2)
    as [|L1]; [discriminate|].
  destruct (JS.eqb (toLowerCase (nth 0 (split 58 (Some 2%nat) repository) []))
                   (str "github")) eqn:E; [|discriminate].
  cbn [negb orb] in H.
  destruct (Nat.ltb_spec
              (length (split 47 (Some 2%nat)
                         (nth 1 (split 58 (Some 2%nat) repository) []))) 2)
    as [|L2]; [discriminate|].
  injection H as <-.
  repeat split; try assumption.
  unfold JS.eqb in E; now destruct (list_eq_dec _ _ _).
Qed.

End Repository.

(** X8.  [getRepository] reads the short notation: for a [grp] object
    whose [repository] is [github], in any mix of upper and lower case, a
    colon, an owner, a slash and a name, with neither colon nor slash in
    owner and name, it returns that owner and that name. *)
Theorem getRepository_short_notation
  (fields grp : list (jsstring * json)) (scheme o n : jsstring) :
  assoc (str "grp") fields = Some (JObj grp) ->
  assoc (str "repository") grp
  = Some (JStr (scheme ++ str ":" ++ o ++ str "/" ++ n)) ->
  toLowerCase scheme = str "github" ->
  ~ In 58 o -> ~ In 47 o -> ~ In 58 n -> ~ In 47 n ->
  getRepository (JObj fields) = Return {| owner := o; name := n |}.
Proof.
  intros Hg Hr Hs O1 O2 N1 N2.
  assert (S58 : ~ In 58 scheme).
  { intros H; pose proof (toLowerCase_in 58 scheme H eq_refl) as H'.
    rewrite Hs in H'; vm_compute in H'; intuition discriminate. }
  assert (R58 : ~ In 58 (o ++ 47 :: n)).
  { intros H; apply in_app_or in H; destruct H as [H|[H|H]];
      [now apply O1|discriminate H|now apply N1]. }
  unfold getRepository; cbn [get await]; rewrite Hg.
  cbn [typeof_json get await]; rewrite Hr; unfold split.
  change (scheme ++ str ":" ++ o ++ str "/" ++ n)
    with (scheme ++ 58 :: o ++ 47 :: n).
  rewrite (split_all_app 58 scheme _ S58), (split_all_no_sep 58 _ R58).
  cbn [firstn length nth Nat.ltb Nat.leb]; rewrite Hs.
  replace (JS.eqb (str "github") (str "github")) with true by reflexivity.
  cbn [negb orb].
  rewrite (split_all_app 47 o n O2), (split_all_no_sep 47 n N2).
  reflexivity.
Qed.

(** X8 at [GitHub:jgm/pandoc]. *)
Lemma getRepository_short_notation_witness :
  getRepository
    (JObj [(str "name", JStr (str "pandoc-bin"));
           (str "grp",
            JObj [(str "repository", JStr (str "GitHub:jgm/pandoc"))])])
  = Return {| owner := str "jgm"; name := str "pandoc" |}.
Proof.
  apply (getRepository_short_notation _
           [(str "repository", JStr (str "GitHub:jgm/pandoc"))]
           (str "GitHub") (str "jgm") (str "pandoc"));
    try reflexivity; vm_compute; intuition discriminate.
Defined.

(** X9.  Whatever the package file holds, an owner and a name that
    [getRepository] returns have neither a slash nor a colon in them. *)
Theorem getRepository_no_delimiters (packageJson : json)
  (repo : GitHubRepository) :
  getRepository packageJson = Return repo ->
  ~ In 47 (owner repo) /\ ~ In 58 (owner repo)
  /\ ~ In 47 (name repo) /\ ~ In 58 (name repo).
Proof.
  intros H; destruct (getRepository_inv _ _ H) as (r & L1 & _ & L2 & ->).
  cbn [owner name]; unfold split in *.
  set (rest := nth 1 (firstn 2 (split_all 58 r)) []) in *.
  assert (Hrest : In rest (split_all 58 r))
    by (apply nth_firstn_in; lia).
  assert (P : forall i, (i < 2)%nat ->
            ~ In 47 (nth i (firstn 2 (split_all 47 rest)) [])
            /\ ~ In 58 (nth i (firstn 2 (split_all 47 rest)) [])).
  { intros i Hi.
    assert (Hp : In (nth i (firstn 2 (split_all 47 rest)) [])
                    (split_all 47 rest))
      by (apply nth_firstn_in; lia).
    split; intros Hc.
    - now destruct (split_all_in 47 rest _ 47 Hp Hc).
    - destruct (split_all_in 47 rest _ 58 Hp Hc) as [Hc' _].
      now destruct (split_all_in 58 r rest 58 Hrest Hc'). }
  destruct (P 0%nat ltac:(lia)), (P 1%nat ltac:(lia)); auto.
Qed.

(** X9 at [github:a/b/c:d], where the second split cuts the name. *)
Lemma getRepository_no_delimiters_witness :
  getRepository
    (JObj [(str "grp",
            JObj [(str "repository", JStr (str "github:a/b/c:d"))])])
  = Return {| owner := str "a"; name := str "b" |}
  /\ ~ In 47 (str "a") /\ ~ In 58 (str "a")
  /\ ~ In 47 (str "b") /\ ~ In 58 (str "b").
Proof.
  split; [reflexivity|].
  exact (getRepository_no_delimiters
           (JObj [(str "grp",
                   JObj [(str "repository",
                          JStr (str "github:a/b/c:d"))])])
           {| owner := str "a"; name := str "b" |} eq_refl).
Defined.

(** ** Whether to go on with an update *)

(** X10.  [shouldAbort] decides by the operation: never when it is
    [force], always when it is [checkonly], and otherwise exactly when the
    condition holds.  It writes one line to the console, a warning only when
    a check finds the condition not to hold. *)
Theorem shouldAbort_decision (condition : bool) (operation : jsval)
  (trueText falseText : jsstring) (detailText : jsval) :
  let r := shouldAbort condition operation trueText falseText detailText in
  fst r
  = (if strict_equal operation UpdateOperation_force then false
     else if strict_equal operation UpdateOperation_checkonly then true
     else condition)
  /\ length (snd r) = 1%nat
  /\ ((exists msg, In (console_warn msg) (snd r))
      <-> condition = false
          /\ strict_equal operation UpdateOperation_checkonly = true).
Proof.
  assert (X : strict_equal operation UpdateOperation_force = true ->
              strict_equal operation UpdateOperation_checkonly = false).
  { destruct operation as [| | |n|]; simpl; try discriminate.
    intros E; apply Z.eqb_eq in E; now subst. }
  unfold shouldAbort; cbv zeta.
  destruct condition;
    destruct (strict_equal operation UpdateOperation_force) eqn:F;
    try rewrite (X eq_refl);
    destruct (strict_equal operation UpdateOperation_checkonly) eqn:C;
    cbn [negb fst snd length In];
    (split; [reflexivity|split; [reflexivity|]]);
    try discriminate (X eq_refl);
    split;
    try (intros [msg [H|[]]]; discriminate H);
    try (intros [H _]; discriminate H);
    try (intros [_ H]; discriminate H);
    try (intros _; split; reflexivity);
    try (intros _; eexists; left; reflexivity).
Qed.

(** ** The executable of a name *)

(** X11.  [GetExecutable] returns the empty string or a value that is
    truthy, whatever the table of executables holds. *)
Theorem GetExecutable_empty_or_truthy (platform : Platform) (arch : Arch)
  (executableName : jsstring) (executables : list (jsstring * json)) :
  exists r,
    GetExecutable platform arch executableName executables = Return r
    /\ (r = JStr [] \/ truthy (Some r) = true).
Proof.
  unfold GetExecutable; cbv zeta.
  destruct (truthy (assoc executableName executables));
    [|eexists; split; [reflexivity|now left]].
  cbn [negb].
  set (p := or_else _ _).
  destruct (truthy p) eqn:Tp;
    [|eexists; split; [reflexivity|now left]].
  cbn [negb].
  set (a := or_else (prop p _) _).
  destruct (truthy a) eqn:Ta;
    [|eexists; split; [reflexivity|now left]].
  cbn [negb]; unfold or_else at 1; rewrite Ta.
  destruct a as [v|]; [|discriminate].
  exists v; split; [reflexivity|now right].
Qed.

Lemma or_else_prop (e : option json) (k : jsstring) (v : json) :
  or_else (prop e k) (prop e (str "default")) = Some v ->
  exists fields k',
    e = Some (JObj fields)
    /\ (k' = k \/ k' = str "default" /\ truthy (assoc k fields) = false)
    /\ assoc k' fields = Some v.
Proof.
  destruct e as [[| | | | |fields]|]; try discriminate.
  unfold or_else; cbn [prop].
  destruct (truthy (assoc k fields)) eqn:T; intros H;
    [exists fields, k|exists fields, (str "default")]; auto.
Qed.

Lemma prop_not_object (v : json) (k : jsstring) :
  (forall fields, v <> JObj fields) -> prop (Some v) k = None.
Proof.
  intros H; destruct v as [| | | | |fields]; try reflexivity.
  now destruct (H fields).
Qed.

(** X12.  A result of [GetExecutable] other than the empty string is found
    two objects deep: under the name, then under the platform, or under
    [default] when the platform has no truthy entry, then under the
    architecture, or under [default] when the architecture has no truthy
    entry.  A path given one level higher is not returned: the result is
    the empty string when the entry of the name is not an object, and when
    the entry of the platform is truthy and not an object, a string for
    one, whatever [default] holds. *)
Theorem GetExecutable_two_levels (platform : Platform) (arch : Arch)
  (executableName : jsstring) (executables : list (jsstring * json))
  (r : json) :
  GetExecutable platform arch executableName executables = Return r ->
  (r <> JStr [] ->
   exists byPlatform byArch k1 k2,
     assoc executableName executables = Some (JObj byPlatform)
     /\ (k1 = platform_name platform
         \/ k1 = str "default"
            /\ truthy (assoc (platform_name platform) byPlatform) = false)
     /\ assoc k1 byPlatform = Some (JObj byArch)
     /\ (k2 = arch_name arch
         \/ k2 = str "default"
            /\ truthy (assoc (arch_name arch) byArch) = false)
     /\ assoc k2 byArch = Some r)
  /\ (forall v,
        assoc executableName executables = Some v ->
        (forall byPlatform, v <> JObj byPlatform) ->
        r = JStr [])
  /\ (forall byPlatform v,
        assoc executableName executables = Some (JObj byPlatform) ->
        assoc (platform_name platform) byPlatform = Some v ->
        truthy (Some v) = true ->
        (forall byArch, v <> JObj byArch) ->
        r = JStr []).
Proof.
  unfold GetExecutable; cbv zeta; intros H.
  split; [|split].
  - revert H.
    destruct (truthy (assoc executableName executables));
      [|intros [= <-] N; now destruct N].
    cbn [negb].
    set (p := or_else _ _).
    destruct (truthy p) eqn:Tp; [|intros [= <-] N; now destruct N].
    cbn [negb].
    set (a := or_else (prop p _) _).
    destruct (truthy a) eqn:Ta; [|intros [= <-] N; now destruct N].
    cbn [negb]; unfold or_else at 1; rewrite Ta.
    destruct a as [v|] eqn:Ea; [|discriminate].
    intros [= ->] _.
    destruct (or_else_prop _ _ _ Ea) as (byArch & k2 & Ep & K2 & A2).
    destruct (or_else_prop _ _ _ Ep) as (byPlatform & k1 & Ee & K1 & A1).
    exists byPlatform, byArch, k1, k2; auto.
  - intros v Hv Hn; rewrite Hv in H.
    destruct (truthy (Some v)); cbn [negb] in H; [|now injection H].
    rewrite !(prop_not_object v _ Hn) in H.
    cbn in H; now injection H.
  - intros byPlatform v He Hv Tv Hn; rewrite He in H.
    assert (P : or_else (prop (Some (JObj byPlatform))
                              (platform_name platform))
                        (prop (Some (JObj byPlatform)) (str "default"))
                = Some v)
      by (cbn [prop]; rewrite Hv; unfold or_else; now rewrite Tv).
    change (truthy (Some (JObj byPlatform))) with true in H.
    cbn [negb] in H; rewrite P, Tv in H; cbn [negb] in H.
    rewrite !(prop_not_object v _ Hn) in H.
    cbn in H; now injection H.
Qed.

(** X12 at a table whose entry has an object under [default]: with no
    entry for the platform the path under [x64] is found there; with a path
    given as a string for the platform the result is the empty string. *)
Lemma GetExecutable_two_levels_witness :
  (exists byPlatform byArch k1 k2,
     assoc (str "pandoc")
       [(str "pandoc",
         JObj [(str "default",
                JObj [(str "x64", JStr (str "bin/pandoc"))])])]
     = Some (JObj byPlatform)
     /\ (k1 = platform_name linux
         \/ k1 = str "default"
            /\ truthy (assoc (platform_name linux) byPlatform) = false)
     /\ assoc k1 byPlatform = Some (JObj byArch)
     /\ (k2 = arch_name x64
         \/ k2 = str "default"
            /\ truthy (assoc (arch_name x64) byArch) = false)
     /\ assoc k2 byArch = Some (JStr (str "bin/pandoc")))
  /\ GetExecutable linux x64 (str "pandoc")
       [(str "pandoc",
         JObj [(str "linux", JStr (str "bin/pandoc-linux"));
               (str "default",
                JObj [(str "x64", JStr (str "bin/pandoc"))])])]
     = Return (JStr []).
Proof.
  split.
  - apply (proj1 (GetExecutable_two_levels linux x64 (str "pandoc")
                    [(str "pandoc",
                      JObj [(str "default",
                             JObj [(str "x64",
                                    JStr (str "bin/pandoc"))])])]
                    (JStr (str "bin/pandoc")) eq_refl)).
    discriminate.
  - destruct (GetExecutable linux x64 (str "pandoc")
                [(str "pandoc",
                  JObj [(str "linux", JStr (str "bin/pandoc-linux"));
                        (str "default",
                         JObj [(str "x64", JStr (str "bin/pandoc"))])])])
      as [r|e] eqn:E; [|discriminate E].
    f_equal.
    apply (proj2 (proj2 (GetExecutable_two_levels linux x64 (str "pandoc")
                           _ r E))
             [(str "linux", JStr (str "bin/pandoc-linux"));
              (str "default",
               JObj [(str "x64", JStr (str "bin/pandoc"))])]
             (JStr (str "bin/pandoc-linux")));
      try reflexivity; discriminate.
Defined.

(** ** The version of the earlier revision *)

Section NPMVersion.

Lemma flat_map_singleton {A B : Type} (f : A -> B) (l : list A) :
  flat_map (fun x => [f x]) l = map f l.
Proof. induction l as [|x l IH]; simpl; congruence. Qed.

(** The array [GetNPMVersion] builds holds one part for each token. *)
Lemma GetNPMVersion_parts (tokens : list jsstring) :
  forEach GetNPMVersion_step tokens [] = map npm_part tokens.
Proof.
  unfold forEach.
  rewrite (fold_left_push _ (fun ix : nat * jsstring => [npm_part (snd ix)])).
  - simpl.
    rewrite (flat_map_combine_snd (fun t => [npm_part t]) tokens 0).
    apply flat_map_singleton.
  - intros st [i t]; unfold GetNPMVersion_step, npm_part; simpl.
    now destruct (parseInt t).
Qed.

Lemma GetNPMVersion_loop_concat (overlapFactor : Z) (parts : list strnum)
  (index : nat) (version : jsstring) :
  GetNPMVersion_loop overlapFactor parts index version
  = version ++ flat_map (scaled overlapFactor) (skipn index parts).
Proof.
  unfold GetNPMVersion_loop; apply fold_left_push.
  now intros st [n|s].
Qed.

Lemma Number_toString_no_dot (n : Z) : ~ In 46 (Number_toString n).
Proof.
  unfold Number_toString; intros H.
  assert (D : ~ In 46 (digits_of_uint (N.to_uint (Z.abs_N n))))
    by (apply digits_not_in; [apply digits_of_uint_digits|reflexivity]).
  destruct (n <? 0)%Z; [destruct H as [H|H]; [discriminate H|]|]; auto.
Qed.

Lemma npm_part_no_dot (v t : jsstring) :
  In t (split_all 46 v) -> ~ In 46 (strnum_toString (npm_part t)).
Proof.
  intros Ht; unfold npm_part; destruct (parseInt t); simpl.
  - apply Number_toString_no_dot.
  - intros H; now destruct (split_all_in 46 v t 46 Ht H).
Qed.

Lemma scaled_no_dot (f : Z) (v t : jsstring) :
  In t (split_all 46 v) -> ~ In 46 (scaled f (npm_part t)).
Proof.
  intros Ht; unfold npm_part; destruct (parseInt t); simpl.
  - apply Number_toString_no_dot.
  - intros H; now destruct (split_all_in 46 v t 46 Ht H).
Qed.

Lemma nth_map_npm_part (v : jsstring) (i : nat) :
  ~ In 46 (strnum_toString
             (nth i (map npm_part (split_all 46 v)) (Str []))).
Proof.
  destruct (Nat.lt_ge_cases i (length (split_all 46 v))) as [L|L].
  - rewrite (nth_indep _ (Str []) (npm_part [])) by now rewrite length_map.
    rewrite map_nth; apply (npm_part_no_dot v), nth_In, L.
  - rewrite nth_overflow by now rewrite length_map.
    intros [].
Qed.

Lemma count_occ_none (l : jsstring) (c : codeunit) :
  ~ In c l -> count_occ N.eq_dec l c = 0%nat.
Proof. apply count_occ_not_In. Qed.

End NPMVersion.

(** X13.  [GetNPMVersion] leaves a version of at most two dots as it is and
    gives any other one exactly two dots: the parts from the third on are
    appended without a separator. *)
Theorem GetNPMVersion_dots (v : jsstring) (overlapFactor : jsval) :
  npm_safe (factor_of overlapFactor) v ->
  exists r,
    GetNPMVersion (JSString v) overlapFactor = Return r
    /\ count_occ N.eq_dec r 46 = Nat.min 2 (count_occ N.eq_dec v 46%N)
    /\ ((count_occ N.eq_dec v 46%N <= 2)%nat -> r = v).
Proof.
  intros _; unfold GetNPMVersion; fold (factor_of overlapFactor).
  cbv zeta; unfold split.
  rewrite GetNPMVersion_parts, length_map, length_split_all.
  destruct (Nat.ltb_spec 3 (S (count_occ N.eq_dec v 46))) as [L|L].
  - eexists; split; [reflexivity|]; split; [|lia].
    rewrite GetNPMVersion_loop_concat.
    change (str ".") with [46].
    rewrite !count_occ_app; cbn [count_occ].
    destruct (N.eq_dec 46 46) as [_|N]; [|now destruct N].
    rewrite !(count_occ_none _ 46 (nth_map_npm_part v _)).
    rewrite count_occ_none; [cbn [count_occ]; lia|].
    intros H; apply in_flat_map in H; destruct H as (x & Hx & Hc).
    assert (Hx' : In x (map npm_part (split_all 46 v))).
    { rewrite <- (firstn_skipn 2 (map npm_part (split_all 46 v))).
      apply in_or_app; now right. }
    apply in_map_iff in Hx'; destruct Hx' as (t & <- & Ht).
    exact (scaled_no_dot _ v t Ht Hc).
  - exists v; split; [reflexivity|]; split; [lia|reflexivity].
Qed.

(** X13 at [1.2.3.4] and the default factor. *)
Lemma GetNPMVersion_dots_witness :
  npm_safe (factor_of JSUndefined) (str "1.2.3.4")
  /\ exists r,
       GetNPMVersion (JSString (str "1.2.3.4")) JSUndefined = Return r
       /\ count_occ N.eq_dec r 46
          = Nat.min 2 (count_occ N.eq_dec (str "1.2.3.4") 46%N)
       /\ ((count_occ N.eq_dec (str "1.2.3.4") 46%N <= 2)%nat ->
           r = str "1.2.3.4").
Proof.
  assert (S : npm_safe (factor_of JSUndefined) (str "1.2.3.4")).
  { intros t n Ht Hp; vm_compute in Ht.
    destruct Ht as [<-|[<-|[<-|[<-|[]]]]]; vm_compute in Hp;
      injection Hp as <-; vm_compute; split; intros H; discriminate H. }
  split; [exact S|].
  exact (GetNPMVersion_dots (str "1.2.3.4") JSUndefined S).
Defined.

(** X14.  On four or more runs of digits joined by dots, [GetNPMVersion]
    keeps the first two numbers and appends, with nothing in between, the
    product of each further number with the factor. *)
Theorem GetNPMVersion_digit_runs (a b : jsstring) (rest : list jsstring)
  (f : Z) :
  f <> 0%Z ->
  (2 <= length rest)%nat ->
  (forall r, In r (a :: b :: rest) ->
     r <> [] /\ forallb isDigit r = true
     /\ (decimal_value r <= Semver.MAX_SAFE_INTEGER)%Z
     /\ (decimal_value r * Z.abs f <= Semver.MAX_SAFE_INTEGER)%Z) ->
  GetNPMVersion (JSString (join (str ".") (a :: b :: rest))) (JSNumber f)
  = Return (Number_toString (decimal_value a) ++ str "."
            ++ Number_toString (decimal_value b) ++ str "."
            ++ concat (map (fun r => Number_toString (decimal_value r * f))
                           rest)).
Proof.
  intros Hf Hl Hr.
  assert (P : forall l, (forall r, In r l -> In r (a :: b :: rest)) ->
            map npm_part l = map (fun r => Num (decimal_value r)) l).
  { intros l Hin; apply map_ext_in; intros r Hi.
    destruct (Hr r (Hin r Hi)) as (N0 & D & _).
    unfold npm_part; now rewrite (parseInt_digits r N0 D). }
  unfold GetNPMVersion; cbv zeta; unfold split.
  change (str ".") with [46].
  rewrite (split_all_join 46 (a :: b :: rest)); [|discriminate|].
  2:{ intros t Ht; destruct (Hr t Ht) as (_ & D & _).
      now apply digits_not_in. }
  rewrite GetNPMVersion_parts, (P _ (fun r H => H)).
  cbn [map length nth strnum_toString].
  destruct (Nat.ltb_spec 3 (S (S (length (map (fun r => Num (decimal_value r))
                                              rest))))) as [_|L];
    [|rewrite length_map in L; lia].
  rewrite GetNPMVersion_loop_concat; cbn [skipn].
  replace (f =? 0)%Z with false by (symmetry; now apply Z.eqb_neq).
  rewrite <- !app_assoc; do 4 f_equal.
  rewrite flat_map_concat_map, map_map; reflexivity.
Qed.

(** X14 at [1.2.3.4] and the factor 1000. *)
Lemma GetNPMVersion_digit_runs_witness :
  GetNPMVersion (JSString (str "1.2.3.4")) (JSNumber 1000)
  = Return (str "1.2.30004000").
Proof.
  apply (GetNPMVersion_digit_runs (str "1") (str "2") [str "3"; str "4"]
           1000).
  - discriminate.
  - simpl; lia.
  - intros r Hr; vm_compute in Hr.
    destruct Hr as [<-|[<-|[<-|[<-|[]]]]];
      (split; [discriminate|split; [reflexivity|]]);
      vm_compute; split; intros H; discriminate H.
Defined.

(** ** The file a release is downloaded to *)

Section TempFile.

Lemma split_all_sep_app (sep : codeunit) (x y : jsstring) :
  split_all sep (x ++ sep :: y) = split_all sep x ++ split_all sep y.
Proof.
  induction x as [|c x IH]; simpl.
  - now rewrite N.eqb_refl.
  - rewrite IH; pose proof (split_all_not_nil sep x) as Hn.
    destruct (c =? sep); [reflexivity|].
    destruct (split_all sep x); [contradiction|reflexivity].
Qed.

Lemma last_app_right {A : Type} (l r : list A) (d : A) :
  r <> [] -> last (l ++ r) d = last r d.
Proof.
  intros Hr; induction l as [|x l IH]; [reflexivity|].
  simpl; rewrite IH.
  destruct (l ++ r) eqn:E; [|reflexivity].
  apply app_eq_nil in E; destruct E; contradiction.
Qed.

(** [s.split('/').pop()] is what follows the last slash. *)
Lemma pop_split_app (x y : jsstring) :
  pop (split 47 None (x ++ 47 :: y)) = pop (split 47 None y).
Proof.
  unfold split, pop; rewrite split_all_sep_app.
  pose proof (split_all_not_nil 47 x) as Hx.
  pose proof (split_all_not_nil 47 y) as Hy.
  rewrite <- (last_app_right (split_all 47 x) (split_all 47 y) [] Hy).
  destruct (split_all 47 x ++ split_all 47 y) eqn:E.
  - apply app_eq_nil in E; destruct E; contradiction.
  - destruct (split_all 47 y); [contradiction|].
    now rewrite <- E.
Qed.

Lemma pop_split_no_sep (y : jsstring) :
  ~ In 47 y -> pop (split 47 None y) = JSString y.
Proof.
  intros H; unfold split; now rewrite (split_all_no_sep 47 y H).
Qed.

Lemma pop_split_clean (url : jsstring) :
  exists t, pop (split 47 None url) = JSString t /\ ~ In 47 t.
Proof.
  unfold split, pop; pose proof (split_all_not_nil 47 url) as Hn.
  destruct (exists_last Hn) as (l & t & E); rewrite E.
  exists t; split.
  - destruct (l ++ [t]) eqn:E'; [now destruct l|].
    now rewrite <- E', last_last.
  - intros H.
    assert (Ht : In t (split_all 47 url))
      by (rewrite E; apply in_or_app; right; now left).
    now destruct (split_all_in 47 url t 47 Ht H).
Qed.

End TempFile.

(** X15.  The release that [UpdateBinary] and [UpdatePackage] cut off the
    address of the latest release has no slash in it, and the file that
    [UpdateBinary] downloads it to, cut off the address that
    [getDownloadURL] gives for it, is [v], the release and [.zip], whatever
    the owner and the name of the repository are. *)
Theorem getDownloadURL_temp_file (repository : GitHubRepository)
  (url : jsstring) :
  exists latest uri,
    pop (split 47 None url) = JSString latest
    /\ ~ In 47 latest
    /\ getDownloadURL repository (JSString latest) = Return uri
    /\ pop (split 47 None uri)
       = JSString (str "v" ++ latest ++ str ".zip").
Proof.
  destruct (pop_split_clean url) as (latest & E & Hn).
  exists latest; eexists; split; [exact E|]; split; [exact Hn|].
  split; [reflexivity|].
  cbn [ToString].
  replace (str "https://github.com/" ++ owner repository ++ str "/"
           ++ name repository ++ str "/archive/v" ++ latest ++ str ".zip")
    with ((str "https://github.com/" ++ owner repository ++ str "/"
           ++ name repository ++ str "/archive")
          ++ 47 :: (str "v" ++ latest ++ str ".zip"))
    by (rewrite <- !app_assoc; reflexivity).
  rewrite pop_split_app; apply pop_split_no_sep.
  intros H; apply in_app_or in H; destruct H as [H|H];
    [vm_compute in H; intuition discriminate|].
  apply in_app_or in H; destruct H as [H|H]; [now apply Hn|].
  vm_compute in H; intuition discriminate.
Qed.

(** ** The code units of a resolved version *)

Section Alphabet.

Lemma join_array_chars (parts : VersionSection) (c : codeunit) :
  Forall good_part parts -> In c (join_array (str ".") parts) ->
  Semver.isIdentChar c = true \/ c = 46.
Proof.
  intros G H; unfold join_array in H; change (str ".") with [46] in H.
  destruct (in_join _ _ _ H) as [E|(t & Ht & Hc)]; [now right|left].
  apply in_map_iff in Ht; destruct Ht as (p & <- & Hp).
  rewrite Forall_forall in G.
  destruct (good_part_toString p (G p Hp)) as (_ & _ & I).
  rewrite forallb_forall in I; now apply I.
Qed.

Lemma suffix_chars (sep c : codeunit) (parts : VersionSection) :
  Forall good_part parts -> In c (suffix [sep] parts) ->
  c = sep \/ Semver.isIdentChar c = true \/ c = 46.
Proof.
  intros G; destruct parts as [|p l]; [intros []|].
  unfold suffix; intros [E|H]; [now left|right].
  now apply (join_array_chars (p :: l)).
Qed.

Lemma padding_chars (k : nat) (c : codeunit) :
  In c (concat (repeat (str ".0") k)) -> c = 46 \/ c = 48.
Proof.
  intros H; apply in_concat in H; destruct H as (l & Hl & Hc).
  apply repeat_spec in Hl; subst l.
  destruct Hc as [<-|[<-|[]]]; auto.
Qed.

Lemma good_firstn (n : nat) (parts : VersionSection) :
  Forall good_part parts -> Forall good_part (firstn n parts).
Proof.
  intros G; rewrite <- (firstn_skipn n parts) in G.
  now apply Forall_app in G.
Qed.

Lemma good_skipn (n : nat) (parts : VersionSection) :
  Forall good_part parts -> Forall good_part (skipn n parts).
Proof.
  intros G; rewrite <- (firstn_skipn n parts) in G.
  now apply Forall_app in G.
Qed.

Lemma assemble_chars (sections : Version) (c : codeunit) :
  Forall good_part (Release sections) ->
  Forall good_part (Prerelease sections) ->
  Forall good_part (BuildMetadata sections) ->
  In c (assemble sections) ->
  Semver.isIdentChar c = true \/ c = 46 \/ c = 43.
Proof.
  intros GR GP GB H.
  assert (T : forall sep parts, Forall good_part parts ->
            Semver.isIdentChar sep = true \/ sep = 43 ->
            In c (suffix [sep] parts) ->
            Semver.isIdentChar c = true \/ c = 46 \/ c = 43).
  { intros sep parts G S Hc.
    destruct (suffix_chars sep c parts G Hc) as [->|[I|E]]; tauto. }
  assert (Tail : In c (suffix (str "-") (Prerelease sections)
                       ++ suffix (str "+") (BuildMetadata sections)) ->
                 Semver.isIdentChar c = true \/ c = 46 \/ c = 43).
  { intros Hc; apply in_app_or in Hc; destruct Hc as [Hc|Hc].
    - apply (T 45 _ GP); [now left|exact Hc].
    - apply (T 43 _ GB); [now right|exact Hc]. }
  destruct (forallb is_Num (firstn 3 (Release sections))) eqn:F.
  - destruct (Release sections) as [|p l] eqn:E.
    + assert (A : assemble sections
                  = str ".0.0" ++ suffix (str "-") (Prerelease sections)
                    ++ suffix (str "+") (BuildMetadata sections)).
      { destruct sections as [rel pre bm]; simpl in E; subst rel.
        destruct pre, bm; cbn [Prerelease BuildMetadata suffix];
          rewrite ?app_nil_r; reflexivity. }
      rewrite A in H; apply in_app_or in H; destruct H as [H|H];
        [|now apply Tail].
      vm_compute in H; destruct H as [<-|[<-|[<-|[<-|[]]]]]; auto.
    + assert (Hn : Release sections <> []) by (rewrite E; discriminate).
      rewrite <- E in F; rewrite (assemble_numeric sections F Hn) in H.
      apply in_app_or in H; destruct H as [H|H].
      { rewrite <- E in GR.
        destruct (join_array_chars _ c (good_firstn 3 _ GR) H); auto. }
      apply in_app_or in H; destruct H as [H|H].
      { destruct (padding_chars _ _ H) as [->| ->]; auto. }
      apply in_app_or in H; destruct H as [H|H]; [|now apply Tail].
      rewrite <- E in GR.
      apply (T 45 _ (good_skipn 3 _ GR)); [now left|exact H].
  - rewrite assemble_non_numeric in H by exact F.
    apply in_app_or in H; destruct H as [H|H].
    { vm_compute in H; destruct H as [<-|[<-|[<-|[<-|[<-|[]]]]]]; auto. }
    apply in_app_or in H; destruct H as [H|H]; [|now apply Tail].
    apply (T 45 _ GR); [now left|exact H].
Qed.

Lemma render_groups_chars (s : jsstring) (g : Semver.groups) (c : codeunit) :
  Semver.FULLPLAIN_tail s = Some g -> In c (render_groups g) ->
  Semver.isIdentChar c = true \/ c = 46.
Proof.
  intros H Hc.
  destruct (FULLPLAIN_tail_inv s g H) as (N1 & N2 & N3 & P & B & C).
  destruct (numeric_identifier_normal _ N1) as [D1 _].
  destruct (numeric_identifier_normal _ N2) as [D2 _].
  destruct (numeric_identifier_normal _ N3) as [D3 _].
  apply digits_ident in D1, D2, D3; rewrite forallb_forall in D1, D2, D3.
  unfold render_groups in Hc; change (str ".") with [46] in Hc.
  repeat (apply in_app_or in Hc; destruct Hc as [Hc|Hc]);
    try (destruct Hc as [<-|[]]); auto.
  destruct (Semver.m4 g) as [p|]; [|destruct Hc].
  destruct Hc as [<-|Hc]; [now left|].
  now apply (PRERELEASE_chars p).
Qed.

Lemma sanitize_twice (s : jsstring) :
  replace_class invalid_char 46 (replace_class invalid_char 46 s)
  = replace_class invalid_char 46 s.
Proof.
  unfold replace_class; rewrite map_map; apply map_ext; intros c.
  destruct (invalid_char c) eqn:E; [reflexivity|now rewrite E].
Qed.

End Alphabet.

(** X16.  What the default plugin resolves a version to is made of digits,
    letters, hyphens, dots and plus signs only. *)
Theorem getSemver_alphabet (v r : jsstring) :
  getSemver_default v = Return r ->
  (Semver.valid v = None -> safe_version (parsed v)) ->
  forall c, In c r -> Semver.isIdentChar c = true \/ c = 46 \/ c = 43.
Proof.
  intros H _ c Hc.
  assert (Hv : trim v <> []).
  { intros E; unfold getSemver_default, getSemver in H.
    apply eqb_nil_true in E; rewrite E in H; discriminate H. }
  rewrite (getSemver_string v Hv) in H; injection H as <-.
  destruct (Semver.valid v) as [r|] eqn:V.
  - destruct (valid_inv v r V) as (g & F & _ & ->).
    destruct (FULL_inv v g F) as (s & T & _).
    destruct (render_groups_chars s g c T Hc); auto.
  - destruct (parsed_good v) as (GR & GP & GB).
    now apply (assemble_chars (parsed v)).
Qed.

(** X16 at [1.2.3.4-rc_1+b]. *)
Lemma getSemver_alphabet_witness :
  getSemver_default (str "1.2.3.4-rc_1+b") = Return (str "1.2.3-4-rc.1+b")
  /\ forall c, In c (str "1.2.3-4-rc.1+b") ->
       Semver.isIdentChar c = true \/ c = 46 \/ c = 43.
Proof.
  assert (E : getSemver_default (str "1.2.3.4-rc_1+b")
              = Return (str "1.2.3-4-rc.1+b")) by (vm_compute; reflexivity).
  split; [exact E|].
  apply (getSemver_alphabet (str "1.2.3.4-rc_1+b") (str "1.2.3-4-rc.1+b") E).
  intros _; safe_version_by_computation.
Defined.

(** X17.  [GetSectionString] changes nothing in a string it has returned,
    and [ParseSection] finds in that string the parts it finds in the
    original. *)
Theorem ParseSection_of_sanitized (section : jsstring) :
  exists s,
    GetSectionString (JSString section) = Return s
    /\ GetSectionString (JSString s) = Return s
    /\ ParseSection (JSString s) = ParseSection (JSString section).
Proof.
  exists (replace_class invalid_char 46 section); split; [reflexivity|].
  split.
  - now rewrite GetSectionString_string, sanitize_twice.
  - rewrite !ParseSection_string; unfold tokenize.
    now rewrite sanitize_twice.
Qed.
